(** * THOR: two-hop opportunistic routing engine

    A shallow embedding of [src/THOR.h] and [src/THOR.cpp]: the packed
    22-byte wire header, the neighbour table ([std::map<uint32_t,
    NeighborInfo>]), the Internet-Gravity scorer and the data plane with
    its pending queue.

    Conventions.
    - [uint8_t], [uint32_t] and [int] values are integers in [Z]; the places
      where the C++ truncates (bit-fields, byte extraction) are written out.
    - a [std::vector<uint8_t>] is a [list Z].
    - the engine object is the record [THOR]; every member function takes
      the state and returns the new one next to its result.
    - reference (out) parameters are passed in and returned.
    - [std::time(nullptr)] is the argument [now]. *)

From Stdlib Require Import ZArith List Lia Bool.
From stdpp Require Import base numbers list option gmap fin_maps sorting.

Local Open Scope Z_scope.

(** ** Data model (THOR.h) *)

Definition BROADCAST_ID : Z := 0xFFFFFFFF.

(** [enum class THORPacketType : uint8_t]; the field holds any byte. *)
Definition HELLO : Z := 1.
Definition ACK : Z := 2.
Definition DATA : Z := 3.

(** [struct flags]: one octet, [ttl] in bits 0..4, then three 1-bit
    fields. *)
Record flags := mkFlags {
  ttl : Z;
  intneighbour : bool;
  visited : bool;
  myInternet : bool
}.

Record Header := mkHeader {
  type : Z;
  flagsAndTTL : flags;
  destinationId : Z;
  senderId : Z;
  originId : Z;
  nextHopId : Z;
  sequence : Z
}.

Record Packet := mkPacket {
  header : Header;
  payload : list Z
}.

Record NeighborInfo := mkNeighborInfo {
  lastSeen : Z;
  rssi : Z;
  hasInternetDirect : bool;
  hasInternetIndirect : bool;
  isVisited : bool
}.

(** The private members of [class THOR]. *)
Record THOR := mkTHOR {
  neighborTable : gmap Z NeighborInfo;
  packetQueue : list Packet
}.

Definition THOR_init : THOR := mkTHOR ∅ [].

(** Value ranges of the C++ types. *)
Definition is_byte (b : Z) : Prop := 0 <= b < 256.
Definition is_u32 (x : Z) : Prop := 0 <= x < 2 ^ 32.

Definition wf_flags (f : flags) : Prop := 0 <= ttl f < 32.

Definition wf_header (h : Header) : Prop :=
  is_byte (type h) /\ wf_flags (flagsAndTTL h) /\
  is_u32 (destinationId h) /\ is_u32 (senderId h) /\ is_u32 (originId h) /\
  is_u32 (nextHopId h) /\ is_u32 (sequence h).

Definition wf_packet (p : Packet) : Prop :=
  wf_header (header p) /\ Forall is_byte (payload p).

Definition wf_table (t : gmap Z NeighborInfo) : Prop :=
  forall id info, t !! id = Some info -> is_u32 id.

(** Field assignments. *)
Definition set_ttl (v : Z) (f : flags) : flags :=
  mkFlags (Z.land v 31) (intneighbour f) (visited f) (myInternet f).
Definition set_visited (v : bool) (f : flags) : flags :=
  mkFlags (ttl f) (intneighbour f) v (myInternet f).

Definition set_flagsAndTTL (f : flags) (h : Header) : Header :=
  mkHeader (type h) f (destinationId h) (senderId h) (originId h)
    (nextHopId h) (sequence h).
Definition set_nextHopId (v : Z) (h : Header) : Header :=
  mkHeader (type h) (flagsAndTTL h) (destinationId h) (senderId h)
    (originId h) v (sequence h).

Definition set_header (h : Header) (p : Packet) : Packet :=
  mkPacket h (payload p).

Definition set_isVisited (v : bool) (n : NeighborInfo) : NeighborInfo :=
  mkNeighborInfo (lastSeen n) (rssi n) (hasInternetDirect n)
    (hasInternetIndirect n) v.

(** [Header header = {}] and a value-initialised [NeighborInfo]. *)
Definition Header_zero : Header :=
  mkHeader 0 (mkFlags 0 false false false) 0 0 0 0 0.
Definition NeighborInfo_zero : NeighborInfo :=
  mkNeighborInfo 0 0 false false false.

(** ** Wire codec *)

Definition sizeof_Header : nat := 22.

(** The flags octet: [(myInternet << 7) | (visited << 6) |
    (intneighbour << 5) | (ttl & 0x1F)]. *)
Definition flags_to_byte (f : flags) : Z :=
  Z.lor (Z.land (ttl f) 31)
    (Z.lor (Z.shiftl (Z.b2z (intneighbour f)) 5)
       (Z.lor (Z.shiftl (Z.b2z (visited f)) 6)
              (Z.shiftl (Z.b2z (myInternet f)) 7))).

Definition flags_of_byte (b : Z) : flags :=
  mkFlags (Z.land b 31) (Z.testbit b 5) (Z.testbit b 6) (Z.testbit b 7).

(** A [uint32_t] in memory, little-endian. *)
Definition u32_to_bytes (x : Z) : list Z :=
  [ Z.land x 255;
    Z.land (Z.shiftr x 8) 255;
    Z.land (Z.shiftr x 16) 255;
    Z.land (Z.shiftr x 24) 255 ].

Definition rd8 (data : list Z) (off : nat) : Z := nth off data 0.

Definition rd32 (data : list Z) (off : nat) : Z :=
  rd8 data off + 2 ^ 8 * rd8 data (off + 1) +
  2 ^ 16 * rd8 data (off + 2) + 2 ^ 24 * rd8 data (off + 3).

(** The 22 bytes of the packed struct. *)
Definition Header_bytes (h : Header) : list Z :=
  [Z.land (type h) 255; flags_to_byte (flagsAndTTL h)]
  ++ u32_to_bytes (destinationId h)
  ++ u32_to_bytes (senderId h)
  ++ u32_to_bytes (originId h)
  ++ u32_to_bytes (nextHopId h)
  ++ u32_to_bytes (sequence h).

(** [memcpy(&header, data, sizeof(Header))]. *)
Definition Header_of_bytes (data : list Z) : Header :=
  mkHeader (rd8 data 0) (flags_of_byte (rd8 data 1))
    (rd32 data 2) (rd32 data 6) (rd32 data 10) (rd32 data 14) (rd32 data 18).

Definition Serialize (packet : Packet) : list Z :=
  Header_bytes (header packet) ++ payload packet.

Definition SerializeHeader (h : Header) : list Z := Header_bytes h.

(** [bool Deserialize(data, outPacket)]: the flag and the out parameter. *)
Definition Deserialize (data : list Z) (outPacket : Packet) : bool * Packet :=
  if (length data <? sizeof_Header)%nat then (false, outPacket)
  else
    let hdr := Header_of_bytes data in
    let payloadSize := (length data - sizeof_Header)%nat in
    if (0 <? payloadSize)%nat
    then (true, mkPacket hdr (drop sizeof_Header data))
    else (true, mkPacket hdr []).

Definition DeserializeHeader (data : list Z) (outheader : Header)
  : bool * Header :=
  if (length data <? sizeof_Header)%nat then (false, outheader)
  else (true, Header_of_bytes data).

Definition CreateHello (DestId SenderId OriginId Sequence : Z) : list Z :=
  SerializeHeader
    (mkHeader HELLO (mkFlags 1 false false false)
       DestId SenderId OriginId BROADCAST_ID Sequence).

Definition CreateACK (DestId SenderId OriginId NextHopId Sequence : Z)
    (myinternet intneighbour : bool) : list Z :=
  SerializeHeader
    (mkHeader ACK (mkFlags 1 intneighbour false myinternet)
       DestId SenderId OriginId NextHopId Sequence).

Definition HandleHello (data : list Z) (outheader : Header) : bool * Header :=
  DeserializeHeader data outheader.

Definition HandleAck (data : list Z) (outheader : Header) : bool * Header :=
  DeserializeHeader data outheader.

(** ** Neighbour table *)

Definition NeighborStore (now nodeId rssi : Z)
    (hasInternetDirect hasInternetIndirect isVisited : bool) (st : THOR) : THOR :=
  mkTHOR
    (<[nodeId := mkNeighborInfo now rssi hasInternetDirect
                   hasInternetIndirect isVisited]> (neighborTable st))
    (packetQueue st).

(** [difftime(now, lastSeen) > 30.0] on whole seconds. *)
Definition RemoveOld (now : Z) (st : THOR) : THOR :=
  mkTHOR
    (filter (fun e : Z * NeighborInfo => negb (30 <? now - lastSeen e.2) = true)
       (neighborTable st))
    (packetQueue st).

(** [neighborTable[id].isVisited = true]; [operator[]] inserts a
    value-initialised entry when the key is absent. *)
Definition mark_visited (id : Z) (t : gmap Z NeighborInfo)
  : gmap Z NeighborInfo :=
  <[id := set_isVisited true (default NeighborInfo_zero (t !! id))]> t.

(** ** Scorer *)

Definition base_score (info : NeighborInfo) : Z :=
  if hasInternetDirect info then 300
  else if hasInternetIndirect info then 200
  else if isVisited info then 10 else 100.

Definition score (info : NeighborInfo) : Z :=
  let currentScore := base_score info in
  if -50 <? rssi info then currentScore - 50
  else if (rssi info <=? -50) && (-80 <=? rssi info) then currentScore + 50
  else currentScore - 20.

(** A [std::map] is walked in ascending key order. *)
Definition key_le (a b : Z * NeighborInfo) : Prop := a.1 <= b.1.

Global Instance key_le_dec a b : Decision (key_le a b).
Proof. unfold key_le. apply _. Defined.

Definition entries (t : gmap Z NeighborInfo) : list (Z * NeighborInfo) :=
  merge_sort key_le (map_to_list t).

(** One iteration of the loop: the state is [(bestNodeId, maxScore)]. *)
Definition best_step (acc : Z * Z) (entry : Z * NeighborInfo) : Z * Z :=
  let currentScore := score entry.2 in
  if acc.2 <? currentScore then (entry.1, currentScore) else acc.

Definition GetBestNextHop_table (t : gmap Z NeighborInfo) : Z :=
  if decide (t = ∅) then 0
  else
    let r := fold_left best_step (entries t) (0, -1) in
    if r.2 =? -1 then 0 else r.1.

Definition GetBestNextHop (st : THOR) : Z :=
  GetBestNextHop_table (neighborTable st).

(** ** Data plane *)

Definition enqueue (p : Packet) (q : list Packet) : list Packet :=
  if (length q <? 50)%nat then q ++ [p] else q.

Definition SendPacket (DestId SenderId OriginId Sequence : Z)
    (payload : list Z) (st : THOR) : list Z * THOR :=
  let header :=
    mkHeader DATA (mkFlags 15 false false false)
      DestId SenderId OriginId 0 Sequence in
  let bestHop := GetBestNextHop st in
  if negb (bestHop =? 0) then
    let table := mark_visited bestHop (neighborTable st) in
    let header :=
      set_flagsAndTTL (set_visited true (flagsAndTTL header))
        (set_nextHopId bestHop header) in
    (Serialize (mkPacket header payload), mkTHOR table (packetQueue st))
  else
    ([], mkTHOR (neighborTable st)
           (enqueue (mkPacket header payload) (packetQueue st))).

Definition HandleData (data : list Z) (outPacket : Packet) (MyNodeId : Z)
    (st : THOR) : list Z * Packet * THOR :=
  let '(ok, outPacket) := Deserialize data outPacket in
  if negb ok then ([], outPacket, st)
  else if ttl (flagsAndTTL (header outPacket)) <=? 1 then ([], outPacket, st)
  else if destinationId (header outPacket) =? MyNodeId then ([], outPacket, st)
  else
    let f := flagsAndTTL (header outPacket) in
    let outPacket :=
      set_header (set_flagsAndTTL (set_ttl (ttl f - 1) f) (header outPacket))
        outPacket in
    let bestHop := GetBestNextHop st in
    if negb (bestHop =? 0) then
      let table := mark_visited bestHop (neighborTable st) in
      let hdr := set_nextHopId bestHop (header outPacket) in
      let hdr := set_flagsAndTTL (set_visited true (flagsAndTTL hdr)) hdr in
      let outPacket := set_header hdr outPacket in
      (Serialize outPacket, outPacket, mkTHOR table (packetQueue st))
    else
      ([], outPacket,
       mkTHOR (neighborTable st) (enqueue outPacket (packetQueue st))).

(** The loop body of [ProcessQueue] on one queued packet. *)
Definition route_via (bestHop : Z) (packet : Packet) : Packet :=
  let hdr := set_nextHopId bestHop (header packet) in
  set_header (set_flagsAndTTL (set_visited true (flagsAndTTL hdr)) hdr) packet.

Definition ProcessQueue (st : THOR) : list (list Z) * THOR :=
  match packetQueue st with
  | [] => ([], st)
  | _ :: _ =>
    let bestHop := GetBestNextHop st in
    if bestHop =? 0 then ([], st)
    else
      let table := mark_visited bestHop (neighborTable st) in
      let batchToSend :=
        map (fun packet => Serialize (route_via bestHop packet))
          (packetQueue st) in
      (batchToSend, mkTHOR table [])
  end.

(** ** The host's calls, as a trace *)

Inductive op :=
| OpNeighborStore (now nodeId rssi : Z) (direct indirect visited : bool)
| OpRemoveOld (now : Z)
| OpSendPacket (DestId SenderId OriginId Sequence : Z) (payload : list Z)
| OpHandleData (data : list Z) (outPacket : Packet) (MyNodeId : Z)
| OpProcessQueue.

Definition exec (st : THOR) (o : op) : THOR :=
  match o with
  | OpNeighborStore now id r d i v => NeighborStore now id r d i v st
  | OpRemoveOld now => RemoveOld now st
  | OpSendPacket d s o q pl => (SendPacket d s o q pl st).2
  | OpHandleData data out me => (HandleData data out me st).2
  | OpProcessQueue => (ProcessQueue st).2
  end.

Definition run (ops : list op) (st : THOR) : THOR := fold_left exec ops st.

(** ** Vocabulary of the statements *)

(** [outPacket.header.flagsAndTTL.ttl -= 1] *)
Definition dec_ttl (p : Packet) : Packet :=
  let f := flagsAndTTL (header p) in
  set_header (set_flagsAndTTL (set_ttl (ttl f - 1) f) (header p)) p.

(** Two packets that differ at most in [nextHopId] and [visited]. *)
Definition same_but_route (p p' : Packet) : Prop :=
  type (header p') = type (header p) /\
  ttl (flagsAndTTL (header p')) = ttl (flagsAndTTL (header p)) /\
  intneighbour (flagsAndTTL (header p')) = intneighbour (flagsAndTTL (header p)) /\
  myInternet (flagsAndTTL (header p')) = myInternet (flagsAndTTL (header p)) /\
  destinationId (header p') = destinationId (header p) /\
  senderId (header p') = senderId (header p) /\
  originId (header p') = originId (header p) /\
  sequence (header p') = sequence (header p) /\
  payload p' = payload p.

(** Two table entries that differ at most in [isVisited]. *)
Definition same_but_visited (a b : NeighborInfo) : Prop :=
  lastSeen b = lastSeen a /\ rssi b = rssi a /\
  hasInternetDirect b = hasInternetDirect a /\
  hasInternetIndirect b = hasInternetIndirect a.

(** A queued packet that no hop has been written into. *)
Definition unrouted (p : Packet) : Prop :=
  nextHopId (header p) = 0 /\ visited (flagsAndTTL (header p)) = false.

(** A frame whose header has [nextHopId = 0] and [visited = 0]. *)
Definition frame_unrouted (data : list Z) : Prop :=
  nextHopId (Header_of_bytes data) = 0 /\
  visited (flagsAndTTL (Header_of_bytes data)) = false.

Definition op_unrouted (o : op) : Prop :=
  match o with
  | OpHandleData data _ _ => frame_unrouted data
  | _ => True
  end.

(** ** Inputs taken from the example simulation *)

Definition help_me : list Z := [72; 101; 108; 112; 32; 77; 101].

Definition sample_frame : list Z :=
  [3; 79; 15; 39; 0; 0; 1; 0; 0; 0; 1; 0; 0; 0; 2; 0; 0; 0; 1; 0; 0; 0;
   72; 101; 108; 112; 32; 77; 101].

Definition sample_packet : Packet :=
  mkPacket (mkHeader DATA (mkFlags 15 false true false) 9999 1 1 2 1) help_me.

Definition unrouted_frame : list Z :=
  [3; 15; 15; 39; 0; 0; 1; 0; 0; 0; 1; 0; 0; 0; 0; 0; 0; 0; 1; 0; 0; 0; 72].

Definition ttl1_frame : list Z :=
  [3; 65; 15; 39; 0; 0; 1; 0; 0; 0; 1; 0; 0; 0; 2; 0; 0; 0; 1; 0; 0; 0; 72].

Definition gateway_neighbor_state : THOR :=
  NeighborStore 100 3 (-72) true false false THOR_init.

Definition zero_id_state : THOR :=
  NeighborStore 100 2 (-65) false true false
    (NeighborStore 100 0 (-65) true false false THOR_init).

Definition queued_then_neighbor : THOR :=
  NeighborStore 100 2 (-65) false true false
    (SendPacket 9999 1 1 1 help_me THOR_init).2.

Definition fifty_one_sends : list op :=
  replicate 51 (OpSendPacket 9999 1 1 1 help_me).

(** ** Further inputs *)

Definition hello_header : Header :=
  mkHeader HELLO (mkFlags 1 false false false) 0 2 2 BROADCAST_ID 10.


(** The calls of the data plane. *)
Definition data_plane_op (o : op) : Prop :=
  match o with
  | OpSendPacket _ _ _ _ _ | OpHandleData _ _ _ | OpProcessQueue => True
  | _ => False
  end.

Definition two_explorers : THOR :=
  NeighborStore 100 7 (-60) false false false
    (NeighborStore 100 3 (-60) false false false THOR_init).

(** A run whose [NeighborStore] calls pass 32-bit ids. *)
Definition op_ids_u32 (o : op) : Prop :=
  match o with
  | OpNeighborStore _ nodeId _ _ _ _ => is_u32 nodeId
  | _ => True
  end.

Definition aged_table : THOR :=
  NeighborStore 100 7 (-60) true false false
    (NeighborStore 60 3 (-60) true false false THOR_init).

(** * Verification *)

(** The first step of the simulation: no neighbour, the packet is queued. *)
Example queue_on_no_route :
  SendPacket 9999 1 1 1 help_me THOR_init
  = ([], mkTHOR ∅ [mkPacket (mkHeader DATA (mkFlags 15 false false false)
                               9999 1 1 0 1) help_me]).
Proof. vm_compute. reflexivity. Qed.

(** ** Arithmetic of bytes and words *)

Global Instance flags_eq_dec : EqDecision flags.
Proof. solve_decision. Defined.

Lemma Z_range_forallb (P : Z -> bool) (n : Z) :
  forallb P (seqZ 0 n) = true -> forall x, 0 <= x < n -> P x = true.
Proof.
  intros Hall x Hx.
  rewrite forallb_forall in Hall. apply Hall.
  apply list_elem_of_In, elem_of_seqZ. lia.
Qed.

Lemma land_255 (x : Z) : Z.land x 255 = x mod 2 ^ 8.
Proof. change 255 with (Z.ones 8). apply Z.land_ones. lia. Qed.

Lemma land_31 (x : Z) : Z.land x 31 = x mod 2 ^ 5.
Proof. change 31 with (Z.ones 5). apply Z.land_ones. lia. Qed.

Lemma land_255_byte (b : Z) : is_byte b -> Z.land b 255 = b.
Proof. unfold is_byte. intros H. rewrite land_255. apply Z.mod_small. lia. Qed.

Lemma land_31_ttl (t : Z) : 0 <= t < 32 -> Z.land t 31 = t.
Proof. intros H. rewrite land_31. apply Z.mod_small. lia. Qed.

Lemma land_255_is_byte (x : Z) : is_byte (Z.land x 255).
Proof.
  unfold is_byte. rewrite land_255.
  pose proof (Z.mod_pos_bound x (2 ^ 8)). lia.
Qed.

Lemma flags_of_to_byte (f : flags) :
  wf_flags f -> flags_of_byte (flags_to_byte f) = f.
Proof.
  destruct f as [t a b c]. unfold wf_flags. cbn [ttl]. intros Ht.
  assert (Hall : forall a b c : bool,
    forallb (fun t => bool_decide
      (flags_of_byte (flags_to_byte (mkFlags t a b c)) = mkFlags t a b c))
      (seqZ 0 32) = true).
  { intros [] [] []; vm_compute; reflexivity. }
  pose proof (Z_range_forallb _ _ (Hall a b c) t Ht) as H.
  cbv beta in H. apply bool_decide_eq_true in H. exact H.
Qed.

Lemma flags_to_of_byte (b : Z) :
  is_byte b -> flags_to_byte (flags_of_byte b) = b.
Proof.
  intros Hb.
  assert (Hall : forallb (fun b => flags_to_byte (flags_of_byte b) =? b)
                   (seqZ 0 256) = true) by (vm_compute; reflexivity).
  pose proof (Z_range_forallb _ _ Hall b Hb) as H.
  cbv beta in H. lia.
Qed.

Lemma flags_to_byte_is_byte (f : flags) : is_byte (flags_to_byte f).
Proof.
  destruct f as [t a b c]. unfold flags_to_byte, is_byte. cbn [ttl intneighbour visited myInternet].
  pose proof (Z.mod_pos_bound t (2 ^ 5)) as Ht.
  assert (Hall : forall a b c : bool,
    forallb (fun t => (0 <=? flags_to_byte (mkFlags t a b c)) &&
                      (flags_to_byte (mkFlags t a b c) <? 256))
      (seqZ 0 32) = true).
  { intros [] [] []; vm_compute; reflexivity. }
  pose proof (Z_range_forallb _ _ (Hall a b c) (t mod 2 ^ 5) ltac:(lia)) as H.
  cbv beta in H. unfold flags_to_byte in H.
  cbn [ttl intneighbour visited myInternet] in H.
  rewrite (land_31 (t mod 2 ^ 5)), Z.mod_mod in H by lia.
  rewrite land_31. lia.
Qed.

Lemma wf_flags_of_byte (b : Z) : wf_flags (flags_of_byte b).
Proof.
  unfold wf_flags, flags_of_byte. cbn [ttl]. rewrite land_31.
  pose proof (Z.mod_pos_bound b (2 ^ 5)). lia.
Qed.

Lemma u32_value_of_bytes (x : Z) :
  is_u32 x ->
  Z.land x 255 + 2 ^ 8 * Z.land (Z.shiftr x 8) 255 +
  2 ^ 16 * Z.land (Z.shiftr x 16) 255 + 2 ^ 24 * Z.land (Z.shiftr x 24) 255 = x.
Proof.
  unfold is_u32. intros Hx.
  rewrite !land_255, !Z.shiftr_div_pow2 by lia.
  change (2 ^ 32) with 4294967296 in Hx.
  change (2 ^ 8) with 256. change (2 ^ 16) with 65536.
  change (2 ^ 24) with 16777216.
  Z.div_mod_to_equations. lia.
Qed.

Lemma u32_bytes_of_value (b0 b1 b2 b3 : Z) :
  is_byte b0 -> is_byte b1 -> is_byte b2 -> is_byte b3 ->
  u32_to_bytes (b0 + 2 ^ 8 * b1 + 2 ^ 16 * b2 + 2 ^ 24 * b3) = [b0; b1; b2; b3].
Proof.
  unfold is_byte, u32_to_bytes. intros H0 H1 H2 H3.
  rewrite !land_255, !Z.shiftr_div_pow2 by lia.
  change (2 ^ 8) with 256. change (2 ^ 16) with 65536.
  change (2 ^ 24) with 16777216.
  repeat f_equal; Z.div_mod_to_equations; lia.
Qed.

Lemma u32_of_bytes_range (b0 b1 b2 b3 : Z) :
  is_byte b0 -> is_byte b1 -> is_byte b2 -> is_byte b3 ->
  is_u32 (b0 + 2 ^ 8 * b1 + 2 ^ 16 * b2 + 2 ^ 24 * b3).
Proof.
  unfold is_byte, is_u32. change (2 ^ 32) with 4294967296.
  change (2 ^ 8) with 256. change (2 ^ 16) with 65536.
  change (2 ^ 24) with 16777216. lia.
Qed.

Lemma u32_to_bytes_is_byte (x : Z) : Forall is_byte (u32_to_bytes x).
Proof. unfold u32_to_bytes. repeat constructor; apply land_255_is_byte. Qed.

(** ** The codec *)

Lemma Header_bytes_length (h : Header) : length (Header_bytes h) = sizeof_Header.
Proof. reflexivity. Qed.

Lemma Header_bytes_is_byte (h : Header) : Forall is_byte (Header_bytes h).
Proof.
  unfold Header_bytes.
  repeat first [ apply Forall_app_2 | apply u32_to_bytes_is_byte ].
  apply Forall_cons_2; [apply land_255_is_byte|].
  apply Forall_cons_2; [apply flags_to_byte_is_byte | apply Forall_nil_2].
Qed.

Lemma Header_of_bytes_app (h : Header) (rest : list Z) :
  wf_header h -> Header_of_bytes (Header_bytes h ++ rest) = h.
Proof.
  destruct h as [ty f d s o n q].
  unfold wf_header. cbn [type flagsAndTTL destinationId senderId originId
                         nextHopId sequence].
  intros (Hty & Hf & Hd & Hs & Ho & Hn & Hq).
  unfold Header_of_bytes, Header_bytes, rd32, rd8, u32_to_bytes.
  cbn [type flagsAndTTL destinationId senderId originId nextHopId sequence
       app nth Nat.add].
  rewrite land_255_byte, flags_of_to_byte by assumption.
  rewrite !u32_value_of_bytes by assumption.
  reflexivity.
Qed.

Lemma Header_bytes_of_bytes (data : list Z) :
  (sizeof_Header <= length data)%nat -> Forall is_byte data ->
  Header_bytes (Header_of_bytes data) = take sizeof_Header data.
Proof.
  intros Hlen Hb. unfold sizeof_Header in *.
  do 22 (destruct data as [|? data]; [cbn in Hlen; lia|]).
  repeat match goal with
         | H : Forall _ (_ :: _) |- _ =>
             apply Forall_cons_1 in H; destruct H as [? H]
         end.
  unfold Header_of_bytes, Header_bytes, rd32, rd8.
  cbn [type flagsAndTTL destinationId senderId originId nextHopId sequence
       nth Nat.add take].
  rewrite land_255_byte, flags_to_of_byte by assumption.
  rewrite !u32_bytes_of_value by assumption.
  reflexivity.
Qed.

Lemma wf_Header_of_bytes (data : list Z) :
  Forall is_byte data -> wf_header (Header_of_bytes data).
Proof.
  intros Hb.
  assert (Hnth : forall i, is_byte (rd8 data i)).
  { intros i. unfold rd8. destruct (nth_in_or_default i data 0) as [Hin | Heq]; [| rewrite Heq].
    - rewrite Forall_forall in Hb. apply Hb, list_elem_of_In, Hin.
    - unfold is_byte. lia. }
  unfold wf_header, Header_of_bytes.
  cbn [type flagsAndTTL destinationId senderId originId nextHopId sequence].
  repeat split; try apply Hnth; try apply wf_flags_of_byte;
    try (apply u32_of_bytes_range; apply Hnth);
    try (apply (wf_flags_of_byte (rd8 data 1))).
Qed.

Lemma Deserialize_short (data : list Z) (out : Packet) :
  (length data < sizeof_Header)%nat -> Deserialize data out = (false, out).
Proof.
  intros H. unfold Deserialize.
  destruct (Nat.ltb_spec (length data) sizeof_Header); [reflexivity | lia].
Qed.

Lemma Deserialize_long (data : list Z) (out : Packet) :
  (sizeof_Header <= length data)%nat ->
  Deserialize data out
  = (true, mkPacket (Header_of_bytes data) (drop sizeof_Header data)).
Proof.
  intros H. unfold Deserialize.
  destruct (Nat.ltb_spec (length data) sizeof_Header); [lia|].
  destruct (Nat.ltb_spec 0 (length data - sizeof_Header)); [reflexivity|].
  rewrite drop_ge by lia. reflexivity.
Qed.

Lemma DeserializeHeader_short (data : list Z) (out : Header) :
  (length data < sizeof_Header)%nat -> DeserializeHeader data out = (false, out).
Proof.
  intros H. unfold DeserializeHeader.
  destruct (Nat.ltb_spec (length data) sizeof_Header); [reflexivity | lia].
Qed.

Lemma DeserializeHeader_long (data : list Z) (out : Header) :
  (sizeof_Header <= length data)%nat ->
  DeserializeHeader data out = (true, Header_of_bytes data).
Proof.
  intros H. unfold DeserializeHeader.
  destruct (Nat.ltb_spec (length data) sizeof_Header); [lia | reflexivity].
Qed.

Lemma Serialize_length (p : Packet) :
  length (Serialize p) = (sizeof_Header + length (payload p))%nat.
Proof. unfold Serialize. rewrite length_app, Header_bytes_length. reflexivity. Qed.

Lemma Deserialize_Serialize (p out : Packet) :
  wf_packet p -> Deserialize (Serialize p) out = (true, p).
Proof.
  intros [Hh _].
  rewrite Deserialize_long by (rewrite Serialize_length; lia).
  unfold Serialize. rewrite Header_of_bytes_app by assumption.
  change sizeof_Header with (length (Header_bytes (header p))).
  rewrite drop_app_length.
  destruct p; reflexivity.
Qed.

Lemma Serialize_Deserialize (data : list Z) (out : Packet) :
  (sizeof_Header <= length data)%nat -> Forall is_byte data ->
  Serialize (Deserialize data out).2 = data.
Proof.
  intros Hlen Hb. rewrite Deserialize_long by assumption.
  unfold Serialize. cbn [snd header payload].
  rewrite Header_bytes_of_bytes by assumption.
  apply take_drop.
Qed.

Lemma wf_Deserialize (data : list Z) (out : Packet) :
  Forall is_byte data -> (sizeof_Header <= length data)%nat ->
  wf_packet (Deserialize data out).2.
Proof.
  intros Hb Hlen. rewrite Deserialize_long by assumption.
  split; cbn [snd header payload].
  - apply wf_Header_of_bytes, Hb.
  - apply Forall_drop, Hb.
Qed.

(** ** The scorer *)

Global Instance key_le_trans : Transitive key_le.
Proof. intros a b c. unfold key_le. lia. Qed.

Global Instance key_le_total : Total key_le.
Proof. intros a b. unfold key_le. lia. Qed.

Lemma elem_of_entries (t : gmap Z NeighborInfo) (id : Z) (info : NeighborInfo) :
  (id, info) ∈ entries t <-> t !! id = Some info.
Proof.
  unfold entries. rewrite merge_sort_Permutation.
  apply elem_of_map_to_list.
Qed.

Lemma entries_sorted (t : gmap Z NeighborInfo) :
  StronglySorted key_le (entries t).
Proof. apply StronglySorted_merge_sort; apply _. Qed.

Lemma score_lower_bound (info : NeighborInfo) : -40 <= score info.
Proof.
  unfold score, base_score.
  destruct (hasInternetDirect info), (hasInternetIndirect info),
    (isVisited info), (-50 <? rssi info),
    ((rssi info <=? -50) && (-80 <=? rssi info)); lia.
Qed.

(** The loop of [GetBestNextHop]: the maximum never decreases, bounds
    every score seen, and the recorded id is an entry attaining it. *)
Lemma fold_best_step (l : list (Z * NeighborInfo)) (b0 m0 : Z) :
  let r := fold_left best_step l (b0, m0) in
  m0 <= r.2 /\
  (forall e, e ∈ l -> score e.2 <= r.2) /\
  (r = (b0, m0) \/
   exists info, (r.1, info) ∈ l /\ score info = r.2 /\ m0 < r.2).
Proof.
  revert b0 m0. induction l as [|[id info] l IH]; intros b0 m0; cbn zeta.
  - cbn. split; [lia|]. split; [|left; reflexivity].
    intros e He. inversion He.
  - cbn [fold_left].
    change (best_step (b0, m0) (id, info))
      with (if m0 <? score info then (id, score info) else (b0, m0)).
    destruct (Z.ltb_spec m0 (score info)) as [Hlt|Hge].
    + destruct (IH id (score info)) as (Hmono & Hmax & Hwho).
      split; [lia|]. split.
      * intros e He. apply elem_of_cons in He as [->|He]; [exact Hmono|].
        apply Hmax, He.
      * right. destruct Hwho as [Heq|(info' & Hin & Hsc & Hgt)].
        -- rewrite Heq. cbn [fst snd]. exists info.
           split; [left|split; [reflexivity|lia]].
        -- exists info'. split; [right; exact Hin|split; [exact Hsc|lia]].
    + destruct (IH b0 m0) as (Hmono & Hmax & Hwho).
      split; [lia|]. split.
      * intros e He. apply elem_of_cons in He as [->|He]; [cbn [snd]; lia|].
        apply Hmax, He.
      * destruct Hwho as [Heq|(info' & Hin & Hsc & Hgt)]; [left; exact Heq|].
        right. exists info'. split; [right; exact Hin|split; [exact Hsc|lia]].
Qed.

(** What [GetBestNextHop] answers: 0 when no neighbour scores 0 or more,
    otherwise a stored id whose score is the maximum. *)
Lemma GetBestNextHop_table_spec (t : gmap Z NeighborInfo) :
  (GetBestNextHop_table t = 0 /\
   forall id info, t !! id = Some info -> score info < 0)
  \/
  (exists info, t !! GetBestNextHop_table t = Some info /\ 0 <= score info /\
     forall id' info', t !! id' = Some info' -> score info' <= score info).
Proof.
  unfold GetBestNextHop_table. destruct (decide (t = ∅)) as [->|Hne].
  { left. split; [reflexivity|]. intros id info H.
    rewrite lookup_empty in H. discriminate. }
  pose proof (fold_best_step (entries t) 0 (-1)) as Hf. cbn zeta in Hf.
  destruct Hf as (Hmono & Hmax & Hwho).
  destruct Hwho as [Heq|(info & Hin & Hsc & Hgt)].
  - left. rewrite Heq. cbn [fst snd]. split; [reflexivity|].
    intros id info Hl. apply elem_of_entries in Hl.
    specialize (Hmax _ Hl). rewrite Heq in Hmax. cbn [fst snd] in Hmax. lia.
  - right. destruct (Z.eqb_spec (fold_left best_step (entries t) (0, -1)).2 (-1))
      as [Hm1|Hm1]; [lia|].
    exists info. apply elem_of_entries in Hin.
    split; [exact Hin|]. split; [lia|].
    intros id' info' Hl. apply elem_of_entries in Hl.
    specialize (Hmax _ Hl). cbn [snd] in Hmax. lia.
Qed.

Lemma GetBestNextHop_nonzero_present (t : gmap Z NeighborInfo) :
  GetBestNextHop_table t <> 0 ->
  exists info, t !! GetBestNextHop_table t = Some info.
Proof.
  intros Hnz. destruct (GetBestNextHop_table_spec t) as [[H0 _]|(info & H & _)].
  - contradiction.
  - exists info. exact H.
Qed.

Lemma GetBestNextHop_u32 (t : gmap Z NeighborInfo) :
  wf_table t -> is_u32 (GetBestNextHop_table t).
Proof.
  intros Hwf. destruct (GetBestNextHop_table_spec t) as [[H0 _]|(info & H & _)].
  - rewrite H0. unfold is_u32. lia.
  - eapply Hwf, H.
Qed.

(** ** Claims about the codec *)

(** C6. The wire codec round-trips.  For every byte string [data] of at
    least 22 bytes (no condition on the type byte is needed), serialising
    the decoded packet gives [data] back; for every well-formed packet [p]
    (each field within the range of its C++ type), decoding its
    serialisation succeeds and gives [p] back. *)
Theorem codec_roundtrip (data : list Z) (p out : Packet)
    (Hlen : (sizeof_Header <= length data)%nat)
    (Hbytes : Forall is_byte data)
    (Hp : wf_packet p) :
  ((Deserialize data out).1 = true /\
   Serialize (Deserialize data out).2 = data) /\
  Deserialize (Serialize p) out = (true, p).
Proof.
  split; [split|].
  - rewrite Deserialize_long by assumption. reflexivity.
  - apply Serialize_Deserialize; assumption.
  - apply Deserialize_Serialize, Hp.
Qed.

Lemma Forall_is_byte_dec (l : list Z) :
  forallb (fun b => (0 <=? b) && (b <? 256)) l = true -> Forall is_byte l.
Proof.
  rewrite forallb_forall, Forall_forall. intros H b Hb.
  apply list_elem_of_In, H in Hb. unfold is_byte. lia.
Qed.

Lemma sample_frame_bytes : Forall is_byte sample_frame.
Proof. apply Forall_is_byte_dec. reflexivity. Qed.

Lemma sample_packet_wf : wf_packet sample_packet.
Proof.
  split.
  - unfold wf_header, wf_flags, is_byte, is_u32, sample_packet, DATA.
    cbn [header type flagsAndTTL ttl destinationId senderId originId
         nextHopId sequence]. lia.
  - apply Forall_is_byte_dec. reflexivity.
Qed.

Lemma codec_roundtrip_witness :
  ((Deserialize sample_frame (mkPacket Header_zero [])).1 = true /\
   Serialize (Deserialize sample_frame (mkPacket Header_zero [])).2
   = sample_frame) /\
  Deserialize (Serialize sample_packet) (mkPacket Header_zero [])
  = (true, sample_packet).
Proof.
  apply (codec_roundtrip sample_frame sample_packet (mkPacket Header_zero [])).
  - unfold sizeof_Header, sample_frame. cbn [length]. lia.
  - exact sample_frame_bytes.
  - exact sample_packet_wf.
Defined.

(** C2 (as the code has it).  Decoding fails exactly when the input is
    shorter than 22 bytes, and then leaves the out parameter alone; the
    type byte is not looked at, so every input of 22 bytes or more
    decodes. *)
Theorem decode_fails_iff_short (data : list Z) (outP : Packet) (outH : Header) :
  ((Deserialize data outP).1 = false <-> (length data < 22)%nat) /\
  ((DeserializeHeader data outH).1 = false <-> (length data < 22)%nat) /\
  ((length data < 22)%nat ->
   Deserialize data outP = (false, outP) /\
   DeserializeHeader data outH = (false, outH)).
Proof.
  change 22%nat with sizeof_Header.
  destruct (Nat.lt_ge_cases (length data) sizeof_Header) as [Hs|Hl].
  - rewrite Deserialize_short, DeserializeHeader_short by assumption.
    cbn [fst]. tauto.
  - rewrite Deserialize_long, DeserializeHeader_long by assumption.
    cbn [fst]. repeat split; intros; first [discriminate | lia].
Qed.

Lemma decode_fails_iff_short_witness :
  Deserialize [3; 15; 0] sample_packet = (false, sample_packet) /\
  DeserializeHeader [3; 15; 0] Header_zero = (false, Header_zero).
Proof.
  apply (decode_fails_iff_short [3; 15; 0] sample_packet Header_zero).
  cbn. lia.
Defined.

(** C2 fails as stated: a 22-byte frame whose type byte is 0 (or 4) is
    outside {1,2,3} and still decodes. *)
Lemma decode_accepts_unknown_type :
  let zeros := replicate 22 0 in
  let four := 4 :: replicate 21 0 in
  (rd8 zeros 0 <> HELLO /\ rd8 zeros 0 <> ACK /\ rd8 zeros 0 <> DATA) /\
  (Deserialize zeros sample_packet).1 = true /\
  (DeserializeHeader zeros Header_zero).1 = true /\
  (rd8 four 0 <> HELLO /\ rd8 four 0 <> ACK /\ rd8 four 0 <> DATA) /\
  (Deserialize four sample_packet).1 = true /\
  (DeserializeHeader four Header_zero).1 = true.
Proof. cbn. unfold HELLO, ACK, DATA. repeat split; lia. Qed.

(** ** Claims about the neighbour table and the scorer *)

(** C3 (as the code has it).  [NeighborStore] checks nothing about the
    id: for every id, 0 and 0xFFFFFFFF included, the table afterwards maps
    the id to the given record stamped with the current time, every other
    entry is as before, and the queue is untouched. *)
Theorem NeighborStore_upserts_any_id (now nodeId r : Z) (d i v : bool) (st : THOR) :
  neighborTable (NeighborStore now nodeId r d i v st) !! nodeId
    = Some (mkNeighborInfo now r d i v) /\
  delete nodeId (neighborTable (NeighborStore now nodeId r d i v st))
    = delete nodeId (neighborTable st) /\
  packetQueue (NeighborStore now nodeId r d i v st) = packetQueue st.
Proof.
  unfold NeighborStore. cbn [neighborTable packetQueue].
  split; [apply lookup_insert_eq|]. split; [apply delete_insert_eq|reflexivity].
Qed.

(** C3 fails as stated: ids 0 and 0xFFFFFFFF are stored like any other. *)
Lemma NeighborStore_keeps_reserved_ids :
  neighborTable (NeighborStore 100 0 (-65) false false false THOR_init) !! 0
    = Some (mkNeighborInfo 100 (-65) false false false) /\
  neighborTable (NeighborStore 100 BROADCAST_ID (-65) false false false THOR_init)
    !! BROADCAST_ID
    = Some (mkNeighborInfo 100 (-65) false false false) /\
  neighborTable (NeighborStore 100 0 (-65) false false false THOR_init)
    <> neighborTable THOR_init.
Proof.
  unfold NeighborStore, THOR_init. cbn [neighborTable packetQueue].
  split; [apply lookup_insert_eq|]. split; [apply lookup_insert_eq|].
  intros H. apply (f_equal (fun t => t !! 0)) in H.
  rewrite lookup_insert_eq, lookup_empty in H. discriminate.
Qed.

Lemma GetBestNextHop_zero_of_negative (t : gmap Z NeighborInfo) :
  (forall id info, t !! id = Some info -> score info < 0) ->
  GetBestNextHop_table t = 0.
Proof.
  intros Hneg.
  destruct (GetBestNextHop_table_spec t) as [[H0 _]|(info & Hl & Hpos & _)].
  - exact H0.
  - specialize (Hneg _ _ Hl). lia.
Qed.

(** C1 (as the code has it).  [GetBestNextHop] answers 0 when every stored
    neighbour scores below 0, and otherwise the id of a stored neighbour
    whose score is at least 0 and at least every other score.  A table
    whose only neighbour is visited, without internet and at rssi -90
    (score 10 - 20 = -10) is of the first kind: the answer is 0. *)
Theorem GetBestNextHop_result (st : THOR) :
  (((forall id info, neighborTable st !! id = Some info -> score info < 0) /\
    GetBestNextHop st = 0)
   \/
   ((exists id info, neighborTable st !! id = Some info /\ 0 <= score info) /\
    exists info, neighborTable st !! GetBestNextHop st = Some info /\
      0 <= score info /\
      forall id' info', neighborTable st !! id' = Some info' ->
        score info' <= score info))
  /\
  (forall now id,
     neighborTable st = {[ id := mkNeighborInfo now (-90) false false true ]} ->
     GetBestNextHop st = 0).
Proof.
  unfold GetBestNextHop. split.
  - destruct (GetBestNextHop_table_spec (neighborTable st))
      as [[H0 Hneg]|(info & Hl & Hpos & Hmax)].
    + left. split; assumption.
    + right. split; [|exists info; auto].
      exists (GetBestNextHop_table (neighborTable st)), info. auto.
  - intros now id Ht. rewrite Ht. apply GetBestNextHop_zero_of_negative.
    intros id' info Hl. apply lookup_singleton_Some in Hl as [_ <-].
    reflexivity.
Qed.

Lemma GetBestNextHop_result_witness :
  GetBestNextHop (NeighborStore 100 5 (-90) false false true THOR_init) = 0.
Proof.
  apply (proj2 (GetBestNextHop_result
                  (NeighborStore 100 5 (-90) false false true THOR_init)) 100 5).
  reflexivity.
Defined.

(** C1 fails as stated: the table holding only neighbour 5 (visited, no
    internet, rssi -90, score -10) is not empty, yet the answer is 0,
    which is not an id of the table, and neighbour 5 is not selected. *)
Lemma sole_negative_neighbor_not_selected :
  let st := NeighborStore 100 5 (-90) false false true THOR_init in
  neighborTable st <> ∅ /\
  neighborTable st !! 5 = Some (mkNeighborInfo 100 (-90) false false true) /\
  score (mkNeighborInfo 100 (-90) false false true) = -10 /\
  GetBestNextHop st = 0 /\
  neighborTable st !! GetBestNextHop st = None.
Proof.
  cbv zeta.
  assert (H0 : GetBestNextHop
                 (NeighborStore 100 5 (-90) false false true THOR_init) = 0)
    by (vm_compute; reflexivity).
  split; [|split; [|split; [|split]]].
  - apply insert_non_empty.
  - apply lookup_insert_eq.
  - reflexivity.
  - exact H0.
  - rewrite H0. unfold NeighborStore, THOR_init. cbn [neighborTable].
    rewrite lookup_insert_ne by lia. apply lookup_empty.
Qed.

(** C10.  When an entry with id 0 is stored and scores strictly higher
    than every other neighbour, [GetBestNextHop] answers 0, the value that
    also means "no route": [SendPacket] returns no bytes, leaves the table
    as it is (nothing is marked visited) and appends the unrouted packet
    to the queue, or drops it when the queue already holds 50. *)
Theorem zero_id_neighbor_masks_route (st : THOR) (info0 : NeighborInfo)
    (DestId SenderId OriginId Sequence : Z) (pl : list Z)
    (Hzero : neighborTable st !! 0 = Some info0)
    (Hbest : forall id info, id <> 0 -> neighborTable st !! id = Some info ->
                             score info < score info0) :
  let pkt := mkPacket (mkHeader DATA (mkFlags 15 false false false)
                         DestId SenderId OriginId 0 Sequence) pl in
  GetBestNextHop st = 0 /\
  (SendPacket DestId SenderId OriginId Sequence pl st).1 = [] /\
  neighborTable (SendPacket DestId SenderId OriginId Sequence pl st).2
    = neighborTable st /\
  packetQueue (SendPacket DestId SenderId OriginId Sequence pl st).2
    = (if (length (packetQueue st) <? 50)%nat
       then packetQueue st ++ [pkt] else packetQueue st).
Proof.
  assert (H0 : GetBestNextHop st = 0).
  { unfold GetBestNextHop.
    destruct (GetBestNextHop_table_spec (neighborTable st))
      as [[H0 _]|(info & Hl & _ & Hmax)]; [exact H0|].
    destruct (decide (GetBestNextHop_table (neighborTable st) = 0))
      as [Hz|Hnz]; [exact Hz|].
    specialize (Hbest _ _ Hnz Hl). specialize (Hmax _ _ Hzero). lia. }
  cbv zeta. split; [exact H0|].
  unfold SendPacket. rewrite H0. cbn [Z.eqb negb fst snd neighborTable packetQueue].
  unfold enqueue. auto.
Qed.

Lemma zero_id_neighbor_masks_route_witness :
  GetBestNextHop zero_id_state = 0 /\
  (SendPacket 9999 1 1 1 help_me zero_id_state).1 = [] /\
  neighborTable (SendPacket 9999 1 1 1 help_me zero_id_state).2
    = neighborTable zero_id_state /\
  packetQueue (SendPacket 9999 1 1 1 help_me zero_id_state).2
    = [mkPacket (mkHeader DATA (mkFlags 15 false false false) 9999 1 1 0 1)
         help_me].
Proof.
  apply (zero_id_neighbor_masks_route zero_id_state
           (mkNeighborInfo 100 (-65) true false false) 9999 1 1 1 help_me).
  - reflexivity.
  - intros id info Hid Hl. unfold zero_id_state, NeighborStore, THOR_init in Hl.
    cbn [neighborTable] in Hl.
    apply lookup_insert_Some in Hl as [[_ <-]|[_ Hl]]; [reflexivity|].
    apply lookup_insert_Some in Hl as [[<- _]|[_ Hl]]; [congruence|].
    rewrite lookup_empty in Hl. discriminate.
Defined.

(** ** The data plane *)

Lemma route_via_fields (h : Z) (p : Packet) :
  nextHopId (header (route_via h p)) = h /\
  visited (flagsAndTTL (header (route_via h p))) = true /\
  same_but_route p (route_via h p).
Proof. unfold same_but_route. cbn. tauto. Qed.

Lemma Deserialize_true (data : list Z) (out p : Packet) :
  Deserialize data out = (true, p) ->
  (sizeof_Header <= length data)%nat /\
  p = mkPacket (Header_of_bytes data) (drop sizeof_Header data).
Proof.
  intros H. destruct (Nat.lt_ge_cases (length data) sizeof_Header) as [Hs|Hl].
  - rewrite Deserialize_short in H by assumption. discriminate.
  - rewrite Deserialize_long in H by assumption. split; [exact Hl|congruence].
Qed.

Lemma THOR_eta (st : THOR) : mkTHOR (neighborTable st) (packetQueue st) = st.
Proof. destruct st; reflexivity. Qed.

(** The three outcomes of [HandleData]: nothing happens (decode failure,
    ttl of 1 or less, or own destination), the packet is forwarded, or it
    is put in the queue. *)
Lemma HandleData_cases (data : list Z) (out : Packet) (me : Z) (st : THOR) :
  ((HandleData data out me st).1.1 = [] /\ (HandleData data out me st).2 = st /\
   forall p, Deserialize data out = (true, p) ->
     1 < ttl (flagsAndTTL (header p)) -> destinationId (header p) = me)
  \/
  (exists p, Deserialize data out = (true, p) /\
     1 < ttl (flagsAndTTL (header p)) /\ destinationId (header p) <> me /\
     GetBestNextHop st <> 0 /\
     HandleData data out me st
     = (Serialize (route_via (GetBestNextHop st) (dec_ttl p)),
        route_via (GetBestNextHop st) (dec_ttl p),
        mkTHOR (mark_visited (GetBestNextHop st) (neighborTable st))
          (packetQueue st)))
  \/
  (exists p, Deserialize data out = (true, p) /\
     1 < ttl (flagsAndTTL (header p)) /\ destinationId (header p) <> me /\
     GetBestNextHop st = 0 /\
     HandleData data out me st
     = ([], dec_ttl p,
        mkTHOR (neighborTable st) (enqueue (dec_ttl p) (packetQueue st)))).
Proof.
  unfold HandleData.
  destruct (Deserialize data out) as [ok p] eqn:Hd.
  destruct ok; cbn [negb].
  2:{ left. cbn. split; [reflexivity|]. split; [reflexivity|]. congruence. }
  destruct (Z.leb_spec (ttl (flagsAndTTL (header p))) 1) as [Httl|Httl].
  { left. cbn. split; [reflexivity|]. split; [reflexivity|].
    intros p' Hp'. injection Hp' as <-. lia. }
  destruct (Z.eqb_spec (destinationId (header p)) me) as [Hdst|Hdst].
  { left. cbn. split; [reflexivity|]. split; [reflexivity|].
    intros p' Hp'. injection Hp' as <-. auto. }
  destruct (Z.eqb_spec (GetBestNextHop st) 0) as [Hh|Hh]; cbn [negb].
  - right. right. exists p. auto.
  - right. left. exists p. repeat split; auto.
Qed.

Lemma SendPacket_cases (d s o q : Z) (pl : list Z) (st : THOR) :
  (GetBestNextHop st <> 0 /\
   packetQueue (SendPacket d s o q pl st).2 = packetQueue st)
  \/
  (GetBestNextHop st = 0 /\
   SendPacket d s o q pl st
   = ([], mkTHOR (neighborTable st)
            (enqueue (mkPacket (mkHeader DATA (mkFlags 15 false false false)
                                  d s o 0 q) pl) (packetQueue st)))).
Proof.
  unfold SendPacket.
  destruct (Z.eqb_spec (GetBestNextHop st) 0) as [Hh|Hh]; cbn [negb].
  - right. auto.
  - left. auto.
Qed.

Lemma ProcessQueue_cases (st : THOR) :
  ((packetQueue st = [] \/ GetBestNextHop st = 0) /\ ProcessQueue st = ([], st))
  \/
  (packetQueue st <> [] /\ GetBestNextHop st <> 0 /\
   ProcessQueue st
   = (map (fun packet => Serialize (route_via (GetBestNextHop st) packet))
        (packetQueue st),
      mkTHOR (mark_visited (GetBestNextHop st) (neighborTable st)) [])).
Proof.
  unfold ProcessQueue. destruct (packetQueue st) as [|p q] eqn:Hq.
  - left. auto.
  - destruct (Z.eqb_spec (GetBestNextHop st) 0) as [Hh|Hh].
    + left. auto.
    + right. split; [discriminate|]. auto.
Qed.

Lemma enqueue_cases (p : Packet) (q : list Packet) :
  ((length q < 50)%nat /\ enqueue p q = q ++ [p]) \/
  ((50 <= length q)%nat /\ enqueue p q = q).
Proof.
  unfold enqueue. destruct (Nat.ltb_spec (length q) 50); [left|right]; auto.
Qed.

Lemma enqueue_length (p : Packet) (q : list Packet) :
  (length q <= 50)%nat -> (length (enqueue p q) <= 50)%nat.
Proof.
  intros H. destruct (enqueue_cases p q) as [[Hl ->]|[Hl ->]]; [|exact H].
  rewrite length_app. cbn. lia.
Qed.

Lemma enqueue_prefix (p : Packet) (q : list Packet) : q `prefix_of` enqueue p q.
Proof.
  destruct (enqueue_cases p q) as [[_ ->]|[_ ->]]; [|reflexivity].
  apply prefix_app_r. reflexivity.
Qed.

Lemma wf_route_via_dec_ttl (h : Z) (p : Packet) :
  wf_packet p -> is_u32 h -> wf_packet (route_via h (dec_ttl p)).
Proof.
  intros [(Hty & Hf & Hd & Hs & Ho & Hn & Hq) Hpl] Hh.
  split; [|exact Hpl].
  unfold wf_header, wf_flags. cbn.
  repeat split; try assumption; try apply Hty; try apply Hd; try apply Hs;
    try apply Ho; try apply Hq; try apply Hh.
  - rewrite land_31. pose proof (Z.mod_pos_bound (ttl (flagsAndTTL (header p)) - 1) (2 ^ 5)). lia.
  - rewrite land_31. pose proof (Z.mod_pos_bound (ttl (flagsAndTTL (header p)) - 1) (2 ^ 5)). lia.
Qed.

(** C5.  A frame that decodes to [p] with ttl at least 2 and a destination
    other than this node, when the scorer answers a hop [h] other than 0,
    makes [HandleData] return bytes that decode to [p] with ttl one less,
    [nextHopId = h], [visited = 1], and the type, the other two flag
    bits, the destination, sender, origin, sequence and the payload as
    received. *)
Theorem HandleData_forwards (data : list Z) (out p : Packet) (me h : Z)
    (st : THOR)
    (Hbytes : Forall is_byte data)
    (Htable : wf_table (neighborTable st))
    (Hdec : Deserialize data out = (true, p))
    (Httl : 2 <= ttl (flagsAndTTL (header p)))
    (Hdst : destinationId (header p) <> me)
    (Hhop : GetBestNextHop st = h)
    (Hnz : h <> 0) :
  exists p',
    (forall out', Deserialize (HandleData data out me st).1.1 out' = (true, p')) /\
    ttl (flagsAndTTL (header p')) = ttl (flagsAndTTL (header p)) - 1 /\
    nextHopId (header p') = h /\
    visited (flagsAndTTL (header p')) = true /\
    payload p' = payload p /\
    destinationId (header p') = destinationId (header p) /\
    senderId (header p') = senderId (header p) /\
    originId (header p') = originId (header p) /\
    sequence (header p') = sequence (header p) /\
    type (header p') = type (header p) /\
    intneighbour (flagsAndTTL (header p')) = intneighbour (flagsAndTTL (header p)) /\
    myInternet (flagsAndTTL (header p')) = myInternet (flagsAndTTL (header p)).
Proof.
  destruct (Deserialize_true _ _ _ Hdec) as [Hlen _].
  assert (Hwf : wf_packet p).
  { pose proof (wf_Deserialize data out Hbytes Hlen) as H.
    rewrite Hdec in H. exact H. }
  assert (Hu : is_u32 h).
  { rewrite <- Hhop. apply GetBestNextHop_u32, Htable. }
  exists (route_via h (dec_ttl p)).
  split.
  - intros out'.
    destruct (HandleData_cases data out me st)
      as [(_ & _ & Hno)|[(p0 & Hd0 & _ & _ & _ & Heq)|(p0 & _ & _ & _ & Hz & _)]].
    + exfalso. apply Hdst, (Hno p Hdec). lia.
    + rewrite Heq, Hhop. cbn [fst]. rewrite Hdec in Hd0. injection Hd0 as <-.
      apply Deserialize_Serialize, wf_route_via_dec_ttl; assumption.
    + congruence.
  - destruct Hwf as [(_ & Hf & _) _]. unfold wf_flags in Hf.
    cbn. rewrite land_31_ttl by lia. repeat split; reflexivity.
Qed.

Lemma HandleData_forwards_witness :
  exists p',
    (forall out', Deserialize
       (HandleData sample_frame (mkPacket Header_zero []) 2
          gateway_neighbor_state).1.1 out' = (true, p')) /\
    ttl (flagsAndTTL (header p')) = 15 - 1 /\
    nextHopId (header p') = 3 /\
    visited (flagsAndTTL (header p')) = true /\
    payload p' = help_me /\
    destinationId (header p') = 9999 /\
    senderId (header p') = 1 /\
    originId (header p') = 1 /\
    sequence (header p') = 1 /\
    type (header p') = DATA /\
    intneighbour (flagsAndTTL (header p')) = false /\
    myInternet (flagsAndTTL (header p')) = false.
Proof.
  apply (HandleData_forwards sample_frame (mkPacket Header_zero [])
           sample_packet 2 3 gateway_neighbor_state).
  - exact sample_frame_bytes.
  - intros id info Hl. unfold gateway_neighbor_state, NeighborStore in Hl.
    cbn [neighborTable THOR_init] in Hl.
    apply lookup_insert_Some in Hl as [[<- _]|[_ Hl]].
    + unfold is_u32. lia.
    + rewrite lookup_empty in Hl. discriminate.
  - reflexivity.
  - cbn. lia.
  - cbn. lia.
  - vm_compute. reflexivity.
  - lia.
Defined.

(** C7.  A frame that decodes with a ttl of 1 or less makes [HandleData]
    return no bytes and leave the engine, queue included, exactly as it
    was: the frame is neither forwarded nor queued. *)
Theorem HandleData_ttl_exhausted (data : list Z) (out p : Packet) (me : Z)
    (st : THOR)
    (Hdec : Deserialize data out = (true, p))
    (Httl : ttl (flagsAndTTL (header p)) <= 1) :
  HandleData data out me st = ([], p, st) /\
  packetQueue (HandleData data out me st).2 = packetQueue st.
Proof.
  unfold HandleData. rewrite Hdec. cbn [negb].
  destruct (Z.leb_spec (ttl (flagsAndTTL (header p))) 1) as [_|Hgt]; [|lia].
  split; reflexivity.
Qed.

Lemma HandleData_ttl_exhausted_witness :
  HandleData ttl1_frame sample_packet 2 gateway_neighbor_state
  = ([], mkPacket (mkHeader DATA (mkFlags 1 false true false) 9999 1 1 2 1) [72],
     gateway_neighbor_state) /\
  packetQueue (HandleData ttl1_frame sample_packet 2 gateway_neighbor_state).2
  = packetQueue gateway_neighbor_state.
Proof.
  apply (HandleData_ttl_exhausted ttl1_frame sample_packet).
  - reflexivity.
  - cbn. lia.
Defined.

(** ** The pending queue along a run *)

Lemma Deserialize_ttl_range (data : list Z) (out p : Packet) :
  Deserialize data out = (true, p) -> 0 <= ttl (flagsAndTTL (header p)) < 32.
Proof.
  intros Hd. apply Deserialize_true in Hd as [_ ->].
  apply (wf_flags_of_byte (rd8 data 1)).
Qed.

Lemma dec_ttl_fields (p : Packet) :
  nextHopId (header (dec_ttl p)) = nextHopId (header p) /\
  visited (flagsAndTTL (header (dec_ttl p))) = visited (flagsAndTTL (header p)) /\
  ttl (flagsAndTTL (header (dec_ttl p)))
    = Z.land (ttl (flagsAndTTL (header p)) - 1) 31 /\
  type (header (dec_ttl p)) = type (header p) /\
  intneighbour (flagsAndTTL (header (dec_ttl p)))
    = intneighbour (flagsAndTTL (header p)) /\
  myInternet (flagsAndTTL (header (dec_ttl p)))
    = myInternet (flagsAndTTL (header p)) /\
  destinationId (header (dec_ttl p)) = destinationId (header p) /\
  senderId (header (dec_ttl p)) = senderId (header p) /\
  originId (header (dec_ttl p)) = originId (header p) /\
  sequence (header (dec_ttl p)) = sequence (header p) /\
  payload (dec_ttl p) = payload p.
Proof. cbn. repeat split; reflexivity. Qed.

Lemma exec_queue_length (st : THOR) (o : op) :
  (length (packetQueue st) <= 50)%nat ->
  (length (packetQueue (exec st o)) <= 50)%nat.
Proof.
  intros H. destruct o as [now id r d i v|now|d s o q pl|data out me|];
    cbn [exec].
  - exact H.
  - exact H.
  - destruct (SendPacket_cases d s o q pl st) as [[_ ->]|[_ ->]]; [exact H|].
    cbn [snd packetQueue]. apply enqueue_length, H.
  - destruct (HandleData_cases data out me st)
      as [(_ & -> & _)|[(p & _ & _ & _ & _ & ->)|(p & _ & _ & _ & _ & ->)]];
      cbn [snd packetQueue]; [exact H|exact H|apply enqueue_length, H].
  - destruct (ProcessQueue_cases st) as [[_ ->]|(_ & _ & ->)];
      cbn [snd packetQueue length]; [exact H|lia].
Qed.

Lemma run_queue_length (ops : list op) (st : THOR) :
  (length (packetQueue st) <= 50)%nat ->
  (length (packetQueue (run ops st)) <= 50)%nat.
Proof.
  revert st. induction ops as [|o ops IH]; intros st H; [exact H|].
  cbn [run fold_left]. apply IH, exec_queue_length, H.
Qed.

Lemma exec_queue_unrouted (st : THOR) (o : op) :
  Forall unrouted (packetQueue st) -> op_unrouted o ->
  Forall unrouted (packetQueue (exec st o)).
Proof.
  intros H Ho. destruct o as [now id r d i v|now|d s o q pl|data out me|];
    cbn [exec].
  - exact H.
  - exact H.
  - destruct (SendPacket_cases d s o q pl st) as [[_ ->]|[_ ->]]; [exact H|].
    cbn [snd packetQueue].
    destruct (enqueue_cases (mkPacket (mkHeader DATA (mkFlags 15 false false false)
                                         d s o 0 q) pl) (packetQueue st))
      as [[_ ->]|[_ ->]]; [|exact H].
    apply Forall_app_2; [exact H|]. apply Forall_singleton. split; reflexivity.
  - destruct (HandleData_cases data out me st)
      as [(_ & -> & _)|[(p & _ & _ & _ & _ & ->)|(p & Hd & _ & _ & _ & ->)]];
      cbn [snd packetQueue]; [exact H|exact H|].
    destruct (enqueue_cases (dec_ttl p) (packetQueue st))
      as [[_ ->]|[_ ->]]; [|exact H].
    apply Forall_app_2; [exact H|]. apply Forall_singleton.
    apply Deserialize_true in Hd as [_ ->]. exact Ho.
  - destruct (ProcessQueue_cases st) as [[_ ->]|(_ & _ & ->)];
      cbn [snd packetQueue]; [exact H|constructor].
Qed.

Lemma exec_queue_prefix (st : THOR) (o : op) :
  o <> OpProcessQueue -> packetQueue st `prefix_of` packetQueue (exec st o).
Proof.
  intros Ho. destruct o as [now id r d i v|now|d s o q pl|data out me|];
    cbn [exec]; [reflexivity|reflexivity| | |congruence].
  - destruct (SendPacket_cases d s o q pl st) as [[_ ->]|[_ ->]];
      [reflexivity|]. cbn [snd packetQueue]. apply enqueue_prefix.
  - destruct (HandleData_cases data out me st)
      as [(_ & -> & _)|[(p & _ & _ & _ & _ & ->)|(p & _ & _ & _ & _ & ->)]];
      cbn [snd packetQueue]; [reflexivity|reflexivity|apply enqueue_prefix].
Qed.

(** C4 (as the code has it).  [SendPacket] enqueues a packet with
    [nextHopId = 0] and [visited = 0].  [HandleData] enqueues the packet
    it received with the ttl decremented by 1 and with the [nextHopId] and
    [visited] bit of the received frame, whatever they are; every other
    field and the payload are as received.  No call
    other than [ProcessQueue] changes or removes a queued packet.  So
    along any run in which the frames given to [HandleData] carry
    [nextHopId = 0] and [visited = 0], every queued packet has
    [nextHopId = 0] and [visited = 0]. *)
Theorem pending_queue_route_fields :
  (forall ops st, Forall unrouted (packetQueue st) -> Forall op_unrouted ops ->
     Forall unrouted (packetQueue (run ops st))) /\
  (forall d s o q pl st, GetBestNextHop st = 0 ->
     (length (packetQueue st) < 50)%nat ->
     exists p, packetQueue (SendPacket d s o q pl st).2 = packetQueue st ++ [p] /\
               unrouted p) /\
  (forall data out me st p, Deserialize data out = (true, p) ->
     2 <= ttl (flagsAndTTL (header p)) -> destinationId (header p) <> me ->
     GetBestNextHop st = 0 -> (length (packetQueue st) < 50)%nat ->
     exists p', packetQueue (HandleData data out me st).2 = packetQueue st ++ [p'] /\
       nextHopId (header p') = nextHopId (header p) /\
       visited (flagsAndTTL (header p')) = visited (flagsAndTTL (header p)) /\
       ttl (flagsAndTTL (header p')) = ttl (flagsAndTTL (header p)) - 1 /\
       type (header p') = type (header p) /\
       intneighbour (flagsAndTTL (header p'))
         = intneighbour (flagsAndTTL (header p)) /\
       myInternet (flagsAndTTL (header p')) = myInternet (flagsAndTTL (header p)) /\
       destinationId (header p') = destinationId (header p) /\
       senderId (header p') = senderId (header p) /\
       originId (header p') = originId (header p) /\
       sequence (header p') = sequence (header p) /\
       payload p' = payload p) /\
  (forall st o, o <> OpProcessQueue ->
     packetQueue st `prefix_of` packetQueue (exec st o)).
Proof.
  split; [|split; [|split]].
  - intros ops. induction ops as [|o ops IH]; intros st Hq Hops; [exact Hq|].
    apply Forall_cons_1 in Hops as [Ho Hops].
    cbn [run fold_left]. apply IH; [|exact Hops].
    apply exec_queue_unrouted; assumption.
  - intros d s o q pl st Hh Hlen.
    destruct (SendPacket_cases d s o q pl st) as [[Hnz _]|[_ ->]];
      [contradiction|].
    cbn [snd packetQueue].
    exists (mkPacket (mkHeader DATA (mkFlags 15 false false false) d s o 0 q) pl).
    split; [|split; reflexivity].
    destruct (enqueue_cases (mkPacket (mkHeader DATA (mkFlags 15 false false false)
                                         d s o 0 q) pl) (packetQueue st))
      as [[_ ->]|[Hfull _]]; [reflexivity|lia].
  - intros data out me st p Hd Httl Hdst Hh Hlen.
    destruct (HandleData_cases data out me st)
      as [(_ & _ & Hno)|[(p0 & _ & _ & _ & Hnz & _)|(p0 & Hd0 & _ & _ & _ & ->)]].
    + exfalso. apply Hdst, (Hno p Hd). lia.
    + contradiction.
    + rewrite Hd in Hd0. injection Hd0 as <-. cbn [snd packetQueue].
      exists (dec_ttl p). split.
      * destruct (enqueue_cases (dec_ttl p) (packetQueue st))
          as [[_ ->]|[Hfull _]]; [reflexivity|lia].
      * pose proof (Deserialize_ttl_range _ _ _ Hd) as Hrange.
        pose proof (dec_ttl_fields p) as Hf.
        rewrite land_31_ttl in Hf by lia. exact Hf.
  - apply exec_queue_prefix.
Qed.

Lemma pending_queue_route_fields_witness :
  Forall unrouted
    (packetQueue (run [OpSendPacket 9999 1 1 1 help_me;
                       OpHandleData unrouted_frame sample_packet 2]
                    THOR_init)).
Proof.
  apply (proj1 pending_queue_route_fields).
  - constructor.
  - apply Forall_cons_2; [exact I|].
    apply Forall_cons_2; [|apply Forall_nil_2].
    split; reflexivity.
Defined.

(** C4 fails as stated: the frame that a flush addressed to node 2
    ([nextHopId = 2], [visited = 1]), handled by an engine without
    neighbours, is queued with [nextHopId = 2] and [visited = 1]. *)
Lemma HandleData_queues_routed_packet :
  let r := HandleData sample_frame (mkPacket Header_zero []) 2 THOR_init in
  GetBestNextHop THOR_init = 0 /\
  r.1.1 = [] /\
  packetQueue r.2
  = [mkPacket (mkHeader DATA (mkFlags 14 false true false) 9999 1 1 2 1)
       help_me] /\
  ~ Forall unrouted (packetQueue r.2).
Proof.
  cbv zeta.
  assert (Hq : packetQueue
                 (HandleData sample_frame (mkPacket Header_zero []) 2 THOR_init).2
               = [mkPacket (mkHeader DATA (mkFlags 14 false true false)
                              9999 1 1 2 1) help_me])
    by (vm_compute; reflexivity).
  split; [vm_compute; reflexivity|]. split; [vm_compute; reflexivity|].
  split; [exact Hq|].
  rewrite Hq. intros H. apply Forall_cons_1 in H as [[Hn _] _].
  cbn in Hn. discriminate.
Qed.

(** C8.  Along any run the queue holds at most 50 packets (from any state
    that does, the fresh engine included); at 50 queued packets a
    [SendPacket] or a [HandleData] for which the scorer answers 0 returns
    no bytes and leaves the engine as it was: the packet is dropped. *)
Theorem queue_capacity :
  (forall ops st, (length (packetQueue st) <= 50)%nat ->
     (length (packetQueue (run ops st)) <= 50)%nat) /\
  (forall ops, (length (packetQueue (run ops THOR_init)) <= 50)%nat) /\
  (forall d s o q pl st, length (packetQueue st) = 50%nat ->
     GetBestNextHop st = 0 -> SendPacket d s o q pl st = ([], st)) /\
  (forall data out me st, length (packetQueue st) = 50%nat ->
     GetBestNextHop st = 0 ->
     (HandleData data out me st).1.1 = [] /\ (HandleData data out me st).2 = st).
Proof.
  split; [|split; [|split]].
  - apply run_queue_length.
  - intros ops. apply run_queue_length. cbn. lia.
  - intros d s o q pl st Hlen Hh.
    destruct (SendPacket_cases d s o q pl st) as [[Hnz _]|[_ ->]];
      [contradiction|].
    destruct (enqueue_cases (mkPacket (mkHeader DATA (mkFlags 15 false false false)
                                         d s o 0 q) pl) (packetQueue st))
      as [[Hlt _]|[_ ->]]; [lia|].
    rewrite THOR_eta. reflexivity.
  - intros data out me st Hlen Hh.
    destruct (HandleData_cases data out me st)
      as [(Hb & Hs & _)|[(p & _ & _ & _ & Hnz & _)|(p & _ & _ & _ & _ & ->)]].
    + auto.
    + contradiction.
    + cbn [fst snd].
      destruct (enqueue_cases (dec_ttl p) (packetQueue st))
        as [[Hlt _]|[_ ->]]; [lia|].
      rewrite THOR_eta. auto.
Qed.

Lemma queue_capacity_witness :
  (length (packetQueue (run fifty_one_sends THOR_init)) <= 50)%nat.
Proof.
  apply (proj1 queue_capacity fifty_one_sends THOR_init).
  cbn. lia.
Defined.

Example queue_cap_scenario :
  length (packetQueue (run (replicate 50 (OpSendPacket 9999 1 1 1 help_me))
                         THOR_init)) = 50%nat /\
  length (packetQueue (run fifty_one_sends THOR_init)) = 50%nat.
Proof. split; vm_compute; reflexivity. Qed.

(** ** The flush *)

Lemma mark_visited_lookup (h : Z) (t : gmap Z NeighborInfo) (info : NeighborInfo) :
  t !! h = Some info ->
  mark_visited h t !! h = Some (set_isVisited true info) /\
  forall id, id <> h -> mark_visited h t !! id = t !! id.
Proof.
  intros Hl. unfold mark_visited. rewrite Hl. cbn [default]. split.
  - apply lookup_insert_eq.
  - intros id Hid. apply lookup_insert_ne. congruence.
Qed.

Lemma mark_visited_fields (h : Z) (t : gmap Z NeighborInfo) (info : NeighborInfo) :
  t !! h = Some info ->
  exists info', mark_visited h t !! h = Some info' /\
    isVisited info' = true /\ same_but_visited info info'.
Proof.
  intros Hl. destruct (mark_visited_lookup _ _ _ Hl) as [Hm _].
  exists (set_isVisited true info). split; [exact Hm|].
  split; [reflexivity|]. unfold same_but_visited. cbn. tauto.
Qed.

(** C9.  With an empty queue, or when the scorer answers 0,
    [ProcessQueue] returns no frames and leaves the engine as it was.
    Otherwise, with [h] the scorer's answer, it returns for each queued
    packet, in queue order, the serialisation of that packet with
    [nextHopId = h] and [visited = 1] and nothing else changed; the entry
    of [h] has [isVisited = true] afterwards and is otherwise as before,
    the other entries stay, and the queue is empty afterwards. *)
Theorem ProcessQueue_flush (st : THOR) :
  ((packetQueue st = [] \/ GetBestNextHop st = 0) ->
   ProcessQueue st = ([], st)) /\
  (packetQueue st <> [] -> GetBestNextHop st <> 0 ->
   Forall2 (fun packet bytes =>
              exists packet', bytes = Serialize packet' /\
                nextHopId (header packet') = GetBestNextHop st /\
                visited (flagsAndTTL (header packet')) = true /\
                same_but_route packet packet')
     (packetQueue st) (ProcessQueue st).1 /\
   (exists info info', neighborTable st !! GetBestNextHop st = Some info /\
      neighborTable (ProcessQueue st).2 !! GetBestNextHop st = Some info' /\
      isVisited info' = true /\ same_but_visited info info') /\
   (forall id, id <> GetBestNextHop st ->
      neighborTable (ProcessQueue st).2 !! id = neighborTable st !! id) /\
   packetQueue (ProcessQueue st).2 = []).
Proof.
  destruct (ProcessQueue_cases st) as [[Hcase Heq]|(Hq & Hh & Heq)].
  - split; [intros _; exact Heq|].
    intros Hq Hh. destruct Hcase; contradiction.
  - split; [intros [Hq'|Hh']; contradiction|].
    intros _ _. rewrite Heq. cbn [fst snd neighborTable packetQueue].
    destruct (GetBestNextHop_nonzero_present (neighborTable st) Hh)
      as [info Hinfo].
    destruct (mark_visited_lookup _ _ _ Hinfo) as [_ Hother].
    destruct (mark_visited_fields _ _ _ Hinfo) as (info' & Hm & Hv & Hsame).
    split; [|split; [|split]].
    + apply Forall2_fmap_r, Forall_Forall2_diag, Forall_forall.
      intros packet _. exists (route_via (GetBestNextHop st) packet).
      split; [reflexivity|]. apply route_via_fields.
    + exists info, info'. auto.
    + exact Hother.
    + reflexivity.
Qed.

Lemma ProcessQueue_flush_witness :
  Forall2 (fun packet bytes =>
             exists packet', bytes = Serialize packet' /\
               nextHopId (header packet') = GetBestNextHop queued_then_neighbor /\
               visited (flagsAndTTL (header packet')) = true /\
               same_but_route packet packet')
    (packetQueue queued_then_neighbor) (ProcessQueue queued_then_neighbor).1 /\
  (exists info info',
     neighborTable queued_then_neighbor !! GetBestNextHop queued_then_neighbor
     = Some info /\
     neighborTable (ProcessQueue queued_then_neighbor).2
       !! GetBestNextHop queued_then_neighbor
     = Some info' /\
     isVisited info' = true /\ same_but_visited info info') /\
  (forall id, id <> GetBestNextHop queued_then_neighbor ->
     neighborTable (ProcessQueue queued_then_neighbor).2 !! id
     = neighborTable queued_then_neighbor !! id) /\
  packetQueue (ProcessQueue queued_then_neighbor).2 = [].
Proof.
  apply (proj2 (ProcessQueue_flush queued_then_neighbor)).
  - vm_compute. discriminate.
  - vm_compute. discriminate.
Defined.

Example flush_scenario :
  GetBestNextHop queued_then_neighbor = 2 /\
  (ProcessQueue queued_then_neighbor).1 = [sample_frame] /\
  Deserialize sample_frame (mkPacket Header_zero []) = (true, sample_packet).
Proof. repeat split; vm_compute; reflexivity. Qed.

(** ** Ties go to the smallest id *)

Lemma fold_best_step_first (l : list (Z * NeighborInfo)) (b0 m0 : Z) :
  let r := fold_left best_step l (b0, m0) in
  (r = (b0, m0) /\ forall e, e ∈ l -> score e.2 <= m0)
  \/
  (exists l1 info l2, l = l1 ++ (r.1, info) :: l2 /\ score info = r.2 /\
     m0 < r.2 /\
     (forall e, e ∈ l1 -> score e.2 < r.2) /\
     (forall e, e ∈ l2 -> score e.2 <= r.2)).
Proof.
  revert b0 m0. induction l as [|[id info] l IH]; intros b0 m0; cbn zeta.
  - left. split; [reflexivity|]. intros e He. inversion He.
  - cbn [fold_left].
    change (best_step (b0, m0) (id, info))
      with (if m0 <? score info then (id, score info) else (b0, m0)).
    destruct (Z.ltb_spec m0 (score info)) as [Hlt|Hge].
    + right. destruct (IH id (score info))
        as [[Heq Hall]|(l1 & info' & l2 & Hl & Hsc & Hgt & Hbefore & Hafter)].
      * exists [], info, l. rewrite Heq. cbn [fst snd app].
        split; [reflexivity|]. split; [reflexivity|]. split; [exact Hlt|].
        split; [|exact Hall]. intros e He. inversion He.
      * exists ((id, info) :: l1), info', l2.
        split; [cbn [app]; f_equal; exact Hl|]. split; [exact Hsc|].
        split; [lia|]. split; [|exact Hafter].
        intros e He. apply elem_of_cons in He as [->|He];
          [cbn [snd]; lia|apply Hbefore, He].
    + destruct (IH b0 m0)
        as [[Heq Hall]|(l1 & info' & l2 & Hl & Hsc & Hgt & Hbefore & Hafter)].
      * left. split; [exact Heq|].
        intros e He. apply elem_of_cons in He as [->|He];
          [cbn [snd]; lia|apply Hall, He].
      * right. exists ((id, info) :: l1), info', l2.
        split; [cbn [app]; f_equal; exact Hl|]. split; [exact Hsc|].
        split; [exact Hgt|]. split; [|exact Hafter].
        intros e He. apply elem_of_cons in He as [->|He];
          [cbn [snd]; lia|apply Hbefore, He].
Qed.

(** Among the neighbours with the top score, the walk in ascending key
    order keeps the first, that is the smallest id. *)
Lemma GetBestNextHop_ties_smallest_id (t : gmap Z NeighborInfo) (id : Z)
    (info : NeighborInfo) :
  t !! id = Some info -> 0 <= score info ->
  (forall id' info', t !! id' = Some info' -> score info' <= score info) ->
  GetBestNextHop_table t <= id.
Proof.
  intros Hl Hpos Hmax. unfold GetBestNextHop_table.
  destruct (decide (t = ∅)) as [->|_].
  { rewrite lookup_empty in Hl. discriminate. }
  pose proof (entries_sorted t) as Hsorted.
  apply elem_of_entries in Hl.
  destruct (fold_best_step_first (entries t) 0 (-1))
    as [[Heq Hall]|(l1 & info1 & l2 & Hent & Hsc & Hgt & Hbefore & Hafter)].
  { specialize (Hall _ Hl). cbn [snd] in Hall. lia. }
  destruct (Z.eqb_spec (fold_left best_step (entries t) (0, -1)).2 (-1))
    as [Hm1|_]; [lia|].
  set (r := fold_left best_step (entries t) (0, -1)) in *.
  assert (Htop : score info1 = score info).
  { assert (H1 : t !! r.1 = Some info1).
    { apply elem_of_entries. rewrite Hent. apply elem_of_app. right. left. }
    specialize (Hmax _ _ H1).
    assert (H2 : score info <= r.2).
    { rewrite Hent in Hl. apply elem_of_app in Hl as [Hl|Hl].
      - specialize (Hbefore _ Hl). cbn [snd] in Hbefore. lia.
      - apply elem_of_cons in Hl as [Hl|Hl].
        + injection Hl as _ ->. lia.
        + specialize (Hafter _ Hl). cbn [snd] in Hafter. lia. }
    lia. }
  rewrite Hent in Hl, Hsorted.
  apply elem_of_app in Hl as [Hl|Hl].
  - specialize (Hbefore _ Hl). cbn [snd] in Hbefore. lia.
  - apply elem_of_cons in Hl as [Hl|Hl].
    + injection Hl as -> _. lia.
    + apply StronglySorted_app_1_r in Hsorted.
      apply StronglySorted_cons in Hsorted as [Hle _].
      rewrite Forall_forall in Hle. specialize (Hle _ Hl).
      unfold key_le in Hle. cbn [fst] in Hle. exact Hle.
Qed.

Example tie_goes_to_smaller_id :
  GetBestNextHop
    (NeighborStore 100 3 (-60) false false false
       (NeighborStore 100 7 (-60) false false false THOR_init)) = 3.
Proof. vm_compute. reflexivity. Qed.

Example direct_internet_band_wins :
  GetBestNextHop
    (NeighborStore 100 4 (-40) true false false
       (NeighborStore 100 9 (-60) true false false THOR_init)) = 9.
Proof. vm_compute. reflexivity. Qed.

Example indirect_beats_unvisited :
  GetBestNextHop
    (NeighborStore 100 4 (-65) false false false
       (NeighborStore 100 9 (-65) false true false THOR_init)) = 9.
Proof. vm_compute. reflexivity. Qed.

(** * Further properties of the code *)

(** ** Header codec and beacons *)

Lemma DeserializeHeader_Header_bytes (h out : Header) (rest : list Z) :
  wf_header h -> DeserializeHeader (Header_bytes h ++ rest) out = (true, h).
Proof.
  intros Hh. rewrite DeserializeHeader_long
    by (rewrite length_app, Header_bytes_length; lia).
  rewrite Header_of_bytes_app by assumption. reflexivity.
Qed.

Lemma wf_header_intro (ty t d s o n q : Z) (a b c : bool) :
  is_byte ty -> 0 <= t < 32 -> is_u32 d -> is_u32 s -> is_u32 o ->
  is_u32 n -> is_u32 q ->
  wf_header (mkHeader ty (mkFlags t a b c) d s o n q).
Proof. unfold wf_header, wf_flags. cbn. tauto. Qed.

Lemma is_u32_BROADCAST_ID : is_u32 BROADCAST_ID.
Proof. unfold is_u32, BROADCAST_ID. lia. Qed.

(** X1.  The header codec round-trips: a header whose fields are in the
    range of their C++ types is decoded back from its 22 bytes, and
    re-encoding the header decoded from at least 22 bytes gives the first
    22 bytes back (what follows them is ignored). *)
Theorem header_codec_roundtrip (data : list Z) (h out : Header)
    (Hlen : (sizeof_Header <= length data)%nat)
    (Hbytes : Forall is_byte data)
    (Hh : wf_header h) :
  DeserializeHeader (SerializeHeader h) out = (true, h) /\
  SerializeHeader (DeserializeHeader data out).2 = take sizeof_Header data.
Proof.
  split.
  - unfold SerializeHeader. rewrite <- (app_nil_r (Header_bytes h)).
    apply DeserializeHeader_Header_bytes, Hh.
  - rewrite DeserializeHeader_long by assumption. cbn [snd].
    apply Header_bytes_of_bytes; assumption.
Qed.

Lemma hello_header_wf : wf_header hello_header.
Proof.
  apply wf_header_intro; unfold is_byte, is_u32, HELLO, BROADCAST_ID; lia.
Qed.

Lemma header_codec_roundtrip_witness :
  DeserializeHeader (SerializeHeader hello_header) Header_zero
  = (true, hello_header) /\
  SerializeHeader (DeserializeHeader sample_frame Header_zero).2
  = take sizeof_Header sample_frame.
Proof.
  apply (header_codec_roundtrip sample_frame hello_header Header_zero).
  - unfold sizeof_Header, sample_frame. cbn [length]. lia.
  - exact sample_frame_bytes.
  - exact hello_header_wf.
Defined.

(** X2.  Whatever the field values, an encoded header is exactly 22
    bytes, each in 0..255; an encoded packet is 22 bytes longer than its
    payload and consists of bytes when the payload does. *)
Theorem encoded_sizes (h : Header) (p : Packet) :
  length (SerializeHeader h) = 22%nat /\
  Forall is_byte (SerializeHeader h) /\
  length (Serialize p) = (22 + length (payload p))%nat /\
  (Forall is_byte (payload p) -> Forall is_byte (Serialize p)).
Proof.
  split; [apply Header_bytes_length|]. split; [apply Header_bytes_is_byte|].
  split; [apply Serialize_length|].
  intros Hpl. unfold Serialize. apply Forall_app_2; [|exact Hpl].
  apply Header_bytes_is_byte.
Qed.

Lemma encoded_sizes_witness :
  Forall is_byte (Serialize sample_packet).
Proof.
  apply (encoded_sizes Header_zero sample_packet).
  apply sample_packet_wf.
Defined.

(** X3.  The beacon handlers read the header of any frame and ignore what
    follows it: given a serialised packet (a DATA frame with its payload
    included) [HandleHello] and [HandleAck] both succeed and return that
    packet's header; neither looks at the type. *)
Theorem beacon_handlers_accept_any_frame (p : Packet) (out : Header)
    (Hh : wf_header (header p)) :
  HandleHello (Serialize p) out = (true, header p) /\
  HandleAck (Serialize p) out = (true, header p).
Proof.
  unfold HandleHello, HandleAck, Serialize.
  split; apply DeserializeHeader_Header_bytes, Hh.
Qed.

Lemma beacon_handlers_accept_any_frame_witness :
  HandleHello (Serialize sample_packet) Header_zero = (true, header sample_packet) /\
  HandleAck (Serialize sample_packet) Header_zero = (true, header sample_packet).
Proof.
  apply (beacon_handlers_accept_any_frame sample_packet Header_zero).
  apply sample_packet_wf.
Defined.

(** X4.  A HELLO built by [CreateHello] from 32-bit ids is 22 bytes and
    [HandleHello] decodes it to type HELLO, ttl 1, all three flag bits
    clear, the given destination, sender, origin and sequence, and
    [nextHopId] equal to the broadcast id. *)
Theorem CreateHello_HandleHello (DestId SenderId OriginId Sequence : Z)
    (out : Header)
    (Hd : is_u32 DestId) (Hs : is_u32 SenderId) (Ho : is_u32 OriginId)
    (Hq : is_u32 Sequence) :
  length (CreateHello DestId SenderId OriginId Sequence) = 22%nat /\
  HandleHello (CreateHello DestId SenderId OriginId Sequence) out
  = (true, mkHeader HELLO (mkFlags 1 false false false)
             DestId SenderId OriginId BROADCAST_ID Sequence).
Proof.
  split; [reflexivity|].
  unfold HandleHello, CreateHello, SerializeHeader.
  rewrite <- (app_nil_r (Header_bytes _)).
  apply DeserializeHeader_Header_bytes, wf_header_intro; try assumption;
    [unfold is_byte, HELLO; lia | lia | apply is_u32_BROADCAST_ID].
Qed.

Lemma CreateHello_HandleHello_witness :
  length (CreateHello 0 2 2 10) = 22%nat /\
  HandleHello (CreateHello 0 2 2 10) Header_zero = (true, hello_header).
Proof.
  apply (CreateHello_HandleHello 0 2 2 10 Header_zero);
    unfold is_u32; lia.
Defined.

(** X5.  An ACK built by [CreateACK] from 32-bit ids is 22 bytes and
    [HandleAck] decodes it to type ACK, ttl 1, [visited = 0], the given
    ids and sequence, and the two capability bits as they were passed:
    [myInternet] from the sixth argument, [intneighbour] from the
    seventh. *)
Theorem CreateACK_HandleAck (DestId SenderId OriginId NextHopId Sequence : Z)
    (myinternet intneigh : bool) (out : Header)
    (Hd : is_u32 DestId) (Hs : is_u32 SenderId) (Ho : is_u32 OriginId)
    (Hn : is_u32 NextHopId) (Hq : is_u32 Sequence) :
  length (CreateACK DestId SenderId OriginId NextHopId Sequence
            myinternet intneigh) = 22%nat /\
  exists h,
    HandleAck (CreateACK DestId SenderId OriginId NextHopId Sequence
                 myinternet intneigh) out = (true, h) /\
    type h = ACK /\ ttl (flagsAndTTL h) = 1 /\
    visited (flagsAndTTL h) = false /\
    myInternet (flagsAndTTL h) = myinternet /\
    intneighbour (flagsAndTTL h) = intneigh /\
    destinationId h = DestId /\ senderId h = SenderId /\
    originId h = OriginId /\ nextHopId h = NextHopId /\
    sequence h = Sequence.
Proof.
  split; [reflexivity|].
  exists (mkHeader ACK (mkFlags 1 intneigh false myinternet)
            DestId SenderId OriginId NextHopId Sequence).
  split; [|cbn; repeat split; reflexivity].
  unfold HandleAck, CreateACK, SerializeHeader.
  rewrite <- (app_nil_r (Header_bytes _)).
  apply DeserializeHeader_Header_bytes, wf_header_intro; try assumption;
    [unfold is_byte, ACK; lia | lia].
Qed.

Lemma CreateACK_HandleAck_witness :
  length (CreateACK 1 2 2 1 11 false true) = 22%nat /\
  exists h,
    HandleAck (CreateACK 1 2 2 1 11 false true) Header_zero = (true, h) /\
    type h = ACK /\ ttl (flagsAndTTL h) = 1 /\
    visited (flagsAndTTL h) = false /\
    myInternet (flagsAndTTL h) = false /\
    intneighbour (flagsAndTTL h) = true /\
    destinationId h = 1 /\ senderId h = 2 /\
    originId h = 2 /\ nextHopId h = 1 /\
    sequence h = 11.
Proof.
  apply (CreateACK_HandleAck 1 2 2 1 11 false true Header_zero);
    unfold is_u32; lia.
Defined.

(** ** Further properties of the data plane *)

Lemma Header_bytes_flags (h : Header) (rest : list Z) :
  flagsAndTTL (Header_of_bytes (Header_bytes h ++ rest))
  = flags_of_byte (flags_to_byte (flagsAndTTL h)).
Proof. reflexivity. Qed.

Lemma HandleData_low_ttl (data : list Z) (out p : Packet) (me : Z) (st : THOR) :
  Deserialize data out = (true, p) -> ttl (flagsAndTTL (header p)) <= 1 ->
  HandleData data out me st = ([], p, st).
Proof.
  intros Hd Httl. unfold HandleData. rewrite Hd. cbn [negb].
  destruct (Z.leb_spec (ttl (flagsAndTTL (header p))) 1); [reflexivity|lia].
Qed.

(** X6.  The data plane never forwards or queues a beacon: a frame built
    by [CreateHello] or [CreateACK] (its ttl is 1), given to
    [HandleData], yields no bytes and leaves the table and the queue as
    they were, whatever the ids, the capability bits and the state. *)
Theorem beacons_not_forwarded (d s o n q me : Z) (mi ib : bool)
    (out : Packet) (st : THOR) :
  ((HandleData (CreateHello d s o q) out me st).1.1 = [] /\
   (HandleData (CreateHello d s o q) out me st).2 = st) /\
  ((HandleData (CreateACK d s o n q mi ib) out me st).1.1 = [] /\
   (HandleData (CreateACK d s o n q mi ib) out me st).2 = st).
Proof.
  split.
  - erewrite HandleData_low_ttl; [split; reflexivity| |].
    + apply Deserialize_long. unfold CreateHello, SerializeHeader.
      rewrite Header_bytes_length. lia.
    + unfold CreateHello, SerializeHeader. cbn [header].
      rewrite <- (app_nil_r (Header_bytes _)), Header_bytes_flags.
      cbn [flagsAndTTL]. vm_compute. discriminate.
  - erewrite HandleData_low_ttl; [split; reflexivity| |].
    + apply Deserialize_long. unfold CreateACK, SerializeHeader.
      rewrite Header_bytes_length. lia.
    + unfold CreateACK, SerializeHeader. cbn [header].
      rewrite <- (app_nil_r (Header_bytes _)), Header_bytes_flags.
      cbn [flagsAndTTL]. destruct mi, ib; vm_compute; discriminate.
Qed.

(** X7.  A frame shorter than 22 bytes (the empty frame included) makes
    [HandleData] return no bytes, leave the caller's packet untouched and
    leave the engine as it was. *)
Theorem HandleData_short_frame (data : list Z) (out : Packet) (me : Z)
    (st : THOR) (Hshort : (length data < 22)%nat) :
  HandleData data out me st = ([], out, st).
Proof.
  unfold HandleData. rewrite Deserialize_short by exact Hshort. reflexivity.
Qed.

Lemma HandleData_short_frame_witness :
  HandleData [3; 79; 15] sample_packet 2 gateway_neighbor_state
  = ([], sample_packet, gateway_neighbor_state).
Proof.
  apply (HandleData_short_frame [3; 79; 15] sample_packet 2
           gateway_neighbor_state).
  cbn. lia.
Defined.

(** X8.  A frame addressed to this node is consumed whatever its ttl:
    [HandleData] returns no bytes, hands the decoded packet back with its
    ttl as received, marks no neighbour and queues nothing, even when a
    route exists. *)
Theorem HandleData_own_destination (data : list Z) (out p : Packet) (me : Z)
    (st : THOR)
    (Hdec : Deserialize data out = (true, p))
    (Hdst : destinationId (header p) = me) :
  HandleData data out me st = ([], p, st).
Proof.
  unfold HandleData. rewrite Hdec. cbn [negb].
  destruct (ttl (flagsAndTTL (header p)) <=? 1); [reflexivity|].
  rewrite Hdst, Z.eqb_refl. reflexivity.
Qed.

Lemma HandleData_own_destination_witness :
  HandleData sample_frame (mkPacket Header_zero []) 9999 gateway_neighbor_state
  = ([], sample_packet, gateway_neighbor_state).
Proof.
  apply (HandleData_own_destination sample_frame (mkPacket Header_zero [])
           sample_packet 9999 gateway_neighbor_state).
  - reflexivity.
  - reflexivity.
Defined.

(** X9.  When the scorer answers a hop [h] other than 0, [SendPacket]
    returns bytes that decode to a DATA packet with ttl 15, [visited = 1],
    [nextHopId = h], the other two flag bits clear, and the ids, sequence
    and payload it was given; the queue is unchanged, the entry of [h]
    gets [isVisited = true] and every other entry stays. *)
Theorem SendPacket_routes (d s o q h : Z) (pl : list Z) (out : Packet)
    (st : THOR)
    (Hd : is_u32 d) (Hs : is_u32 s) (Ho : is_u32 o) (Hq : is_u32 q)
    (Hpl : Forall is_byte pl)
    (Htable : wf_table (neighborTable st))
    (Hhop : GetBestNextHop st = h) (Hnz : h <> 0) :
  Deserialize (SendPacket d s o q pl st).1 out
  = (true, mkPacket (mkHeader DATA (mkFlags 15 false true false) d s o h q) pl) /\
  packetQueue (SendPacket d s o q pl st).2 = packetQueue st /\
  (exists info info', neighborTable st !! h = Some info /\
     neighborTable (SendPacket d s o q pl st).2 !! h = Some info' /\
     isVisited info' = true /\ same_but_visited info info') /\
  (forall id, id <> h ->
     neighborTable (SendPacket d s o q pl st).2 !! id = neighborTable st !! id).
Proof.
  assert (Hu : is_u32 h) by (rewrite <- Hhop; apply GetBestNextHop_u32, Htable).
  assert (Hpres : exists info, neighborTable st !! h = Some info).
  { rewrite <- Hhop. apply GetBestNextHop_nonzero_present.
    unfold GetBestNextHop in Hhop. rewrite Hhop. exact Hnz. }
  destruct Hpres as [info Hinfo].
  destruct (mark_visited_lookup _ _ _ Hinfo) as [_ Hother].
  destruct (mark_visited_fields _ _ _ Hinfo) as (info' & Hm & Hv & Hsame).
  unfold SendPacket. rewrite Hhop.
  destruct (Z.eqb_spec h 0) as [|_]; [contradiction|].
  cbn [negb fst snd neighborTable packetQueue].
  split; [|split; [reflexivity|split; [exists info, info'; auto|exact Hother]]].
  apply Deserialize_Serialize. split; [|exact Hpl].
  apply wf_header_intro; try assumption; [unfold is_byte, DATA; lia|lia].
Qed.

Lemma gateway_neighbor_state_wf : wf_table (neighborTable gateway_neighbor_state).
Proof.
  intros id info Hl. unfold gateway_neighbor_state, NeighborStore in Hl.
  cbn [neighborTable THOR_init] in Hl.
  apply lookup_insert_Some in Hl as [[<- _]|[_ Hl]].
  - unfold is_u32. lia.
  - rewrite lookup_empty in Hl. discriminate.
Qed.

Lemma SendPacket_routes_witness :
  Deserialize (SendPacket 9999 1 1 1 help_me gateway_neighbor_state).1
    (mkPacket Header_zero [])
  = (true, mkPacket (mkHeader DATA (mkFlags 15 false true false) 9999 1 1 3 1)
             help_me) /\
  packetQueue (SendPacket 9999 1 1 1 help_me gateway_neighbor_state).2
  = packetQueue gateway_neighbor_state /\
  (exists info info', neighborTable gateway_neighbor_state !! 3 = Some info /\
     neighborTable (SendPacket 9999 1 1 1 help_me gateway_neighbor_state).2 !! 3
     = Some info' /\
     isVisited info' = true /\ same_but_visited info info') /\
  (forall id, id <> 3 ->
     neighborTable (SendPacket 9999 1 1 1 help_me gateway_neighbor_state).2 !! id
     = neighborTable gateway_neighbor_state !! id).
Proof.
  apply (SendPacket_routes 9999 1 1 1 3 help_me (mkPacket Header_zero [])
           gateway_neighbor_state); try (unfold is_u32; lia).
  - apply Forall_is_byte_dec. reflexivity.
  - exact gateway_neighbor_state_wf.
  - vm_compute. reflexivity.
Defined.

(** X10.  When [HandleData] forwards (ttl at least 2, another
    destination, scorer answer [h] other than 0), the bytes it returns
    are the serialisation of the packet it hands back to the caller, the
    queue is unchanged, the entry of [h] gets [isVisited = true] and
    every other entry stays. *)
Theorem HandleData_forward_effects (data : list Z) (out p : Packet) (me h : Z)
    (st : THOR)
    (Hdec : Deserialize data out = (true, p))
    (Httl : 2 <= ttl (flagsAndTTL (header p)))
    (Hdst : destinationId (header p) <> me)
    (Hhop : GetBestNextHop st = h) (Hnz : h <> 0) :
  (HandleData data out me st).1.1 = Serialize (HandleData data out me st).1.2 /\
  payload (HandleData data out me st).1.2 = payload p /\
  packetQueue (HandleData data out me st).2 = packetQueue st /\
  (exists info info', neighborTable st !! h = Some info /\
     neighborTable (HandleData data out me st).2 !! h = Some info' /\
     isVisited info' = true /\ same_but_visited info info') /\
  (forall id, id <> h ->
     neighborTable (HandleData data out me st).2 !! id = neighborTable st !! id).
Proof.
  assert (Hpres : exists info, neighborTable st !! h = Some info).
  { rewrite <- Hhop. apply GetBestNextHop_nonzero_present.
    unfold GetBestNextHop in Hhop. rewrite Hhop. exact Hnz. }
  destruct Hpres as [info Hinfo].
  destruct (mark_visited_lookup _ _ _ Hinfo) as [_ Hother].
  destruct (mark_visited_fields _ _ _ Hinfo) as (info' & Hm & Hv & Hsame).
  destruct (HandleData_cases data out me st)
    as [(_ & _ & Hno)|[(p0 & Hd0 & _ & _ & _ & Heq)|(p0 & _ & _ & _ & Hz & _)]].
  - exfalso. apply Hdst, (Hno p Hdec). lia.
  - rewrite Hdec in Hd0. injection Hd0 as <-. rewrite Heq, Hhop.
    cbn [fst snd neighborTable packetQueue].
    split; [reflexivity|]. split; [reflexivity|]. split; [reflexivity|].
    split; [exists info, info'; auto|exact Hother].
  - congruence.
Qed.

Lemma HandleData_forward_effects_witness :
  let r := HandleData sample_frame (mkPacket Header_zero []) 2
             gateway_neighbor_state in
  r.1.1 = Serialize r.1.2 /\
  payload r.1.2 = payload sample_packet /\
  packetQueue r.2 = packetQueue gateway_neighbor_state /\
  (exists info info', neighborTable gateway_neighbor_state !! 3 = Some info /\
     neighborTable r.2 !! 3 = Some info' /\
     isVisited info' = true /\ same_but_visited info info') /\
  (forall id, id <> 3 ->
     neighborTable r.2 !! id = neighborTable gateway_neighbor_state !! id).
Proof.
  apply (HandleData_forward_effects sample_frame (mkPacket Header_zero [])
           sample_packet 2 3 gateway_neighbor_state).
  - reflexivity.
  - cbn. lia.
  - cbn. lia.
  - vm_compute. reflexivity.
  - lia.
Defined.

(** ** Store and forward *)

(** X11.  A packet that [SendPacket] had to queue leaves a later flush as
    the very bytes [SendPacket] would return for the same arguments in the
    flushing state: queueing changes when the packet is sent, not what is
    sent.  It is the last frame of the batch. *)
Theorem store_and_forward_same_bytes (d s o q : Z) (pl : list Z)
    (st st2 : THOR)
    (Hno : GetBestNextHop st = 0)
    (Hroom : (length (packetQueue st) < 50)%nat)
    (Hqueue : packetQueue st2 = packetQueue (SendPacket d s o q pl st).2)
    (Hroute : GetBestNextHop st2 <> 0) :
  last (ProcessQueue st2).1 = Some (SendPacket d s o q pl st2).1.
Proof.
  destruct (SendPacket_cases d s o q pl st) as [[Hnz _]|[_ Heq]];
    [contradiction|].
  rewrite Heq in Hqueue. cbn [snd packetQueue] in Hqueue.
  destruct (enqueue_cases (mkPacket (mkHeader DATA (mkFlags 15 false false false)
                                       d s o 0 q) pl) (packetQueue st))
    as [[_ Henq]|[Hfull _]]; [|lia].
  rewrite Henq in Hqueue.
  destruct (ProcessQueue_cases st2) as [[[Hempty|Hz] _]|(_ & _ & Hflush)].
  - rewrite Hqueue in Hempty. destruct (packetQueue st); discriminate.
  - contradiction.
  - rewrite Hflush, Hqueue. cbn [fst]. rewrite map_app. cbn [map].
    rewrite last_snoc. f_equal.
    unfold SendPacket.
    destruct (Z.eqb_spec (GetBestNextHop st2) 0) as [|_]; [contradiction|].
    reflexivity.
Qed.

Lemma store_and_forward_same_bytes_witness :
  last (ProcessQueue queued_then_neighbor).1
  = Some (SendPacket 9999 1 1 1 help_me queued_then_neighbor).1.
Proof.
  apply (store_and_forward_same_bytes 9999 1 1 1 help_me THOR_init
           queued_then_neighbor).
  - vm_compute. reflexivity.
  - cbn. lia.
  - reflexivity.
  - vm_compute. discriminate.
Defined.

(** X12.  A flush right after a flush sends nothing and changes nothing:
    no queued packet is emitted twice. *)
Theorem ProcessQueue_twice (st : THOR) :
  ProcessQueue (ProcessQueue st).2 = ([], (ProcessQueue st).2).
Proof.
  destruct (ProcessQueue_cases st) as [[_ Heq]|(_ & _ & Heq)].
  - rewrite Heq. cbn [snd]. exact Heq.
  - rewrite Heq. cbn [snd]. reflexivity.
Qed.

(** ** The data plane and the neighbour table *)

Lemma set_isVisited_idem (v : bool) (info : NeighborInfo) :
  set_isVisited v (set_isVisited v info) = set_isVisited v info.
Proof. reflexivity. Qed.

Lemma mark_visited_best_hop (t : gmap Z NeighborInfo) (id : Z) :
  GetBestNextHop_table t <> 0 ->
  (set_isVisited true <$> mark_visited (GetBestNextHop_table t) t !! id
   = set_isVisited true <$> t !! id) /\
  (forall info, t !! id = Some info -> isVisited info = true ->
     mark_visited (GetBestNextHop_table t) t !! id = Some info).
Proof.
  intros Hnz. destruct (GetBestNextHop_nonzero_present t Hnz) as [info Hinfo].
  destruct (mark_visited_lookup _ _ _ Hinfo) as [Hm Hother].
  destruct (decide (id = GetBestNextHop_table t)) as [->|Hne].
  - rewrite Hm, Hinfo. cbn [fmap option_fmap option_map]. split; [reflexivity|].
    intros info' Heq Hv. injection Heq as <-. f_equal.
    destruct info as [l r dd ii v]. cbn in Hv. rewrite Hv. reflexivity.
  - rewrite (Hother id Hne). split; [reflexivity|]. intros info' Heq _. exact Heq.
Qed.

Lemma data_plane_table (st : THOR) (o : op) :
  data_plane_op o ->
  neighborTable (exec st o) = neighborTable st \/
  (GetBestNextHop st <> 0 /\
   neighborTable (exec st o)
   = mark_visited (GetBestNextHop st) (neighborTable st)).
Proof.
  intros Ho. destruct o as [now id r d i v|now|d s o q pl|data out me|];
    cbn [data_plane_op] in Ho; try contradiction; cbn [exec].
  - unfold SendPacket.
    destruct (Z.eqb_spec (GetBestNextHop st) 0) as [Hz|Hnz]; cbn [negb snd];
      [left|right]; auto.
  - destruct (HandleData_cases data out me st)
      as [(_ & -> & _)|[(p & _ & _ & _ & Hnz & ->)|(p & _ & _ & _ & _ & ->)]];
      cbn [snd neighborTable]; [left|right|left]; auto.
  - destruct (ProcessQueue_cases st) as [[_ ->]|(_ & Hnz & ->)];
      cbn [snd neighborTable]; [left|right]; auto.
Qed.



(** ** Expiry *)

Lemma RemoveOld_lookup (now : Z) (st : THOR) (id : Z) (info : NeighborInfo) :
  neighborTable (RemoveOld now st) !! id = Some info <->
  neighborTable st !! id = Some info /\ now - lastSeen info <= 30.
Proof.
  unfold RemoveOld. cbn [neighborTable].
  rewrite map_lookup_filter_Some. cbn [snd].
  destruct (Z.ltb_spec 30 (now - lastSeen info)); cbn [negb];
    split; intros [H1 H2]; split; try exact H1; try lia; try reflexivity;
    discriminate.
Qed.

(** X14.  [RemoveOld] keeps exactly the entries seen no more than 30
    seconds before [now], unchanged (an entry stamped in the future is
    kept), never touches the queue, and running it again at the same time
    changes nothing. *)
Theorem RemoveOld_keeps_fresh (now : Z) (st : THOR) :
  (forall id info,
     neighborTable (RemoveOld now st) !! id = Some info <->
     neighborTable st !! id = Some info /\ now - lastSeen info <= 30) /\
  packetQueue (RemoveOld now st) = packetQueue st /\
  RemoveOld now (RemoveOld now st) = RemoveOld now st.
Proof.
  split; [intros id info; apply RemoveOld_lookup|]. split; [reflexivity|].
  assert (Ht : neighborTable (RemoveOld now (RemoveOld now st))
               = neighborTable (RemoveOld now st)).
  { apply map_eq. intros id. apply option_eq. intros info.
    rewrite (RemoveOld_lookup now (RemoveOld now st)), RemoveOld_lookup. tauto. }
  unfold RemoveOld at 1. rewrite <- (THOR_eta (RemoveOld now st)) at 3.
  f_equal. exact Ht.
Qed.

(** X15.  A neighbour stored at time [t] is still in the table after an
    expiry run at any time up to [t + 30], with the record as stored, and
    is gone after an expiry run at any later time. *)
Theorem NeighborStore_then_RemoveOld (t now nodeId r : Z) (d i v : bool)
    (st : THOR) :
  neighborTable (RemoveOld now (NeighborStore t nodeId r d i v st)) !! nodeId
  = if 30 <? now - t then None else Some (mkNeighborInfo t r d i v).
Proof.
  assert (Hl : neighborTable (NeighborStore t nodeId r d i v st) !! nodeId
               = Some (mkNeighborInfo t r d i v)) by apply lookup_insert_eq.
  destruct (Z.ltb_spec 30 (now - t)) as [Hold|Hfresh].
  - apply eq_None_not_Some. intros [info Hinfo].
    apply RemoveOld_lookup in Hinfo as [Hinfo Hage].
    rewrite Hl in Hinfo. injection Hinfo as <-. cbn [lastSeen] in Hage. lia.
  - apply RemoveOld_lookup. split; [exact Hl|]. cbn [lastSeen]. lia.
Qed.

(** X16.  After an expiry run the scorer only ever picks a neighbour that
    was seen no more than 30 seconds before that run. *)
Theorem best_hop_after_RemoveOld_is_fresh (now h : Z) (st : THOR)
    (Hhop : GetBestNextHop (RemoveOld now st) = h) (Hnz : h <> 0) :
  exists info, neighborTable st !! h = Some info /\ now - lastSeen info <= 30.
Proof.
  unfold GetBestNextHop in Hhop.
  destruct (GetBestNextHop_nonzero_present (neighborTable (RemoveOld now st)))
    as [info Hinfo]; [rewrite Hhop; exact Hnz|].
  rewrite Hhop in Hinfo. apply RemoveOld_lookup in Hinfo.
  exists info. exact Hinfo.
Qed.

Lemma best_hop_after_RemoveOld_is_fresh_witness :
  exists info, neighborTable aged_table !! 7 = Some info /\
               105 - lastSeen info <= 30.
Proof.
  apply (best_hop_after_RemoveOld_is_fresh 105 7 aged_table).
  - vm_compute. reflexivity.
  - lia.
Defined.

Example expired_lower_id_is_skipped :
  GetBestNextHop aged_table = 3 /\ GetBestNextHop (RemoveOld 105 aged_table) = 7.
Proof. split; vm_compute; reflexivity. Qed.

(** ** More on the scorer *)

Ltac score_cases info :=
  unfold score, base_score;
  destruct (hasInternetDirect info), (hasInternetIndirect info),
    (isVisited info);
  destruct (Z.ltb_spec (-50) (rssi info));
  destruct (Z.leb_spec (rssi info) (-50));
  destruct (Z.leb_spec (-80) (rssi info));
  cbn [andb]; try lia.

Lemma score_negative_iff (info : NeighborInfo) :
  score info < 0 <->
  hasInternetDirect info = false /\ hasInternetIndirect info = false /\
  isVisited info = true /\ ~ (-80 <= rssi info <= -50).
Proof.
  score_cases info; split; try lia; try (intros (? & ? & ? & ?); try lia; discriminate);
    intros _; repeat split; try reflexivity; lia.
Qed.

Lemma score_without_direct (info : NeighborInfo) :
  hasInternetDirect info = false -> score info <= 250.
Proof. intros H. revert H. score_cases info; discriminate. Qed.

Lemma score_direct_not_near (info : NeighborInfo) :
  hasInternetDirect info = true -> rssi info <= -50 -> 280 <= score info.
Proof. intros H. revert H. score_cases info; discriminate. Qed.

Lemma score_top_iff (info : NeighborInfo) :
  350 <= score info <->
  hasInternetDirect info = true /\ -80 <= rssi info <= -50.
Proof.
  score_cases info; split; try lia; try (intros [? ?]; try lia; discriminate);
    intros _; split; try reflexivity; lia.
Qed.

(** X17.  Among the neighbours whose score is the highest (and at least
    0), [GetBestNextHop] answers the smallest id: the answer is a stored
    id with that top score and no top-scoring neighbour has a smaller
    id. *)
Theorem best_hop_is_smallest_top_id (st : THOR) (id : Z) (info : NeighborInfo)
    (Hin : neighborTable st !! id = Some info)
    (Hpos : 0 <= score info)
    (Htop : forall id' info', neighborTable st !! id' = Some info' ->
                              score info' <= score info) :
  GetBestNextHop st <= id /\
  exists info', neighborTable st !! GetBestNextHop st = Some info' /\
                score info' = score info.
Proof.
  unfold GetBestNextHop. split.
  - eapply GetBestNextHop_ties_smallest_id; eassumption.
  - destruct (GetBestNextHop_table_spec (neighborTable st))
      as [[_ Hneg]|(info' & Hl & _ & Hmax)].
    + specialize (Hneg _ _ Hin). lia.
    + exists info'. split; [exact Hl|].
      specialize (Hmax _ _ Hin). specialize (Htop _ _ Hl). lia.
Qed.

Lemma two_explorers_lookup (id : Z) (info : NeighborInfo) :
  neighborTable two_explorers !! id = Some info ->
  (id = 3 \/ id = 7) /\ info = mkNeighborInfo 100 (-60) false false false.
Proof.
  unfold two_explorers, NeighborStore, THOR_init. cbn [neighborTable].
  intros Hl.
  apply lookup_insert_Some in Hl as [[<- <-]|[_ Hl]]; [auto|].
  apply lookup_insert_Some in Hl as [[<- <-]|[_ Hl]]; [auto|].
  rewrite lookup_empty in Hl. discriminate.
Qed.

Lemma best_hop_is_smallest_top_id_witness :
  GetBestNextHop two_explorers <= 3 /\
  exists info', neighborTable two_explorers !! GetBestNextHop two_explorers
                = Some info' /\
                score info' = score (mkNeighborInfo 100 (-60) false false false).
Proof.
  apply (best_hop_is_smallest_top_id two_explorers 3).
  - reflexivity.
  - vm_compute. discriminate.
  - intros id' info' Hl. apply two_explorers_lookup in Hl as [_ ->]. lia.
Defined.

(** X18.  With no entry stored under id 0, [GetBestNextHop] finds a hop
    (answers an id other than 0) exactly when some neighbour has direct
    or indirect internet, or is not yet visited, or has its rssi within
    -80..-50; a table of visited, internet-less neighbours outside that
    band gives 0. *)
Theorem route_found_iff (st : THOR)
    (Hzero : neighborTable st !! 0 = None) :
  GetBestNextHop st <> 0 <->
  exists id info, neighborTable st !! id = Some info /\
    (hasInternetDirect info = true \/ hasInternetIndirect info = true \/
     isVisited info = false \/ -80 <= rssi info <= -50).
Proof.
  assert (Hnonneg : forall info, 0 <= score info <->
    (hasInternetDirect info = true \/ hasInternetIndirect info = true \/
     isVisited info = false \/ -80 <= rssi info <= -50)).
  { intros info. pose proof (score_negative_iff info) as Hn.
    destruct (hasInternetDirect info), (hasInternetIndirect info),
      (isVisited info); split; intros H; try lia; auto;
      try (destruct (decide (-80 <= rssi info <= -50)); [auto|];
           exfalso; assert (score info < 0) by (apply Hn; auto); lia).
    all: destruct H as [H|[H|[H|H]]]; try discriminate.
    all: destruct (Z.lt_ge_cases (score info) 0) as [Hlt|]; [|assumption].
    all: apply Hn in Hlt; destruct Hlt as (_ & _ & _ & Hband); contradiction. }
  unfold GetBestNextHop.
  destruct (GetBestNextHop_table_spec (neighborTable st))
    as [[H0 Hneg]|(info & Hl & Hpos & _)].
  - split; [intros H; contradiction|].
    intros (id & info & Hl & Hcap). apply Hnonneg in Hcap.
    specialize (Hneg _ _ Hl). lia.
  - split.
    + intros _. exists (GetBestNextHop_table (neighborTable st)), info.
      split; [exact Hl|]. apply Hnonneg, Hpos.
    + intros _ Hz. rewrite Hz, Hzero in Hl. discriminate.
Qed.

Lemma route_found_iff_witness :
  GetBestNextHop two_explorers <> 0 <->
  exists id info, neighborTable two_explorers !! id = Some info /\
    (hasInternetDirect info = true \/ hasInternetIndirect info = true \/
     isVisited info = false \/ -80 <= rssi info <= -50).
Proof.
  apply (route_found_iff two_explorers).
  reflexivity.
Defined.

(** X19.  A neighbour with direct internet whose rssi is -50 or lower
    makes the scorer pick a neighbour with direct internet that scores at
    least as high; when that neighbour is within -80..-50 the pick is a
    direct-internet neighbour within -80..-50, whatever the others are. *)
Theorem direct_internet_dominates (st : THOR) (id : Z) (info : NeighborInfo)
    (Hin : neighborTable st !! id = Some info)
    (Hdirect : hasInternetDirect info = true)
    (Hrssi : rssi info <= -50) :
  exists info', neighborTable st !! GetBestNextHop st = Some info' /\
    hasInternetDirect info' = true /\ score info <= score info' /\
    (-80 <= rssi info -> -80 <= rssi info' <= -50).
Proof.
  pose proof (score_direct_not_near info Hdirect Hrssi) as Hsc.
  unfold GetBestNextHop.
  destruct (GetBestNextHop_table_spec (neighborTable st))
    as [[_ Hneg]|(info' & Hl & _ & Hmax)].
  - specialize (Hneg _ _ Hin). lia.
  - specialize (Hmax _ _ Hin). exists info'. split; [exact Hl|].
    assert (Hd' : hasInternetDirect info' = true).
    { destruct (hasInternetDirect info') eqn:Hd; [reflexivity|].
      pose proof (score_without_direct info' Hd). lia. }
    split; [exact Hd'|]. split; [exact Hmax|].
    intros Hband. apply score_top_iff.
    assert (350 <= score info) by (apply score_top_iff; split; [assumption|lia]).
    lia.
Qed.

Lemma direct_internet_dominates_witness :
  exists info', neighborTable gateway_neighbor_state
                  !! GetBestNextHop gateway_neighbor_state = Some info' /\
    hasInternetDirect info' = true /\
    score (mkNeighborInfo 100 (-72) true false false) <= score info' /\
    (-80 <= -72 -> -80 <= rssi info' <= -50).
Proof.
  apply (direct_internet_dominates gateway_neighbor_state 3
           (mkNeighborInfo 100 (-72) true false false)).
  - reflexivity.
  - reflexivity.
  - cbn. lia.
Defined.

(** X20.  At equal rssi the score orders the neighbours by class: direct
    internet above everything without it, indirect internet above
    everything without internet, and without internet a fresh neighbour
    above a visited one. *)
Theorem score_class_order (a b : NeighborInfo) (Hrssi : rssi a = rssi b) :
  (hasInternetDirect a = true -> hasInternetDirect b = false ->
   score b < score a) /\
  (hasInternetDirect a = false -> hasInternetIndirect a = true ->
   hasInternetDirect b = false -> hasInternetIndirect b = false ->
   score b < score a) /\
  (hasInternetDirect a = false -> hasInternetIndirect a = false ->
   isVisited a = false ->
   hasInternetDirect b = false -> hasInternetIndirect b = false ->
   isVisited b = true ->
   score b < score a).
Proof.
  unfold score, base_score. rewrite Hrssi.
  destruct (hasInternetDirect a), (hasInternetIndirect a), (isVisited a),
    (hasInternetDirect b), (hasInternetIndirect b), (isVisited b),
    (-50 <? rssi b), ((rssi b <=? -50) && (-80 <=? rssi b));
    repeat split; intros; try discriminate; lia.
Qed.

Lemma score_class_order_witness :
  score (mkNeighborInfo 100 (-65) false false false)
  < score (mkNeighborInfo 100 (-65) false true false).
Proof.
  apply (proj1 (proj2 (score_class_order
                         (mkNeighborInfo 100 (-65) false true false)
                         (mkNeighborInfo 100 (-65) false false false)
                         eq_refl))); reflexivity.
Defined.

(** X21.  Every score lies in -40..350 and is never -1, the value
    [maxScore] starts from.  Marking a neighbour visited never raises its
    score, leaves it unchanged when the neighbour has direct or indirect
    internet, and lowers it by 90 when it has none and was not visited. *)
Theorem score_range_and_visited_mark (info : NeighborInfo) :
  (-40 <= score info <= 350 /\ score info <> -1) /\
  score (set_isVisited true info) <= score info /\
  (hasInternetDirect info = true \/ hasInternetIndirect info = true ->
   score (set_isVisited true info) = score info) /\
  (hasInternetDirect info = false -> hasInternetIndirect info = false ->
   isVisited info = false ->
   score (set_isVisited true info) = score info - 90).
Proof.
  unfold score, base_score.
  cbn [set_isVisited rssi hasInternetDirect hasInternetIndirect isVisited].
  destruct (hasInternetDirect info), (hasInternetIndirect info),
    (isVisited info), (-50 <? rssi info),
    ((rssi info <=? -50) && (-80 <=? rssi info));
    repeat split; intros; try lia; try discriminate;
    match goal with H : _ \/ _ |- _ => destruct H; discriminate end.
Qed.

Lemma score_range_and_visited_mark_witness :
  score (set_isVisited true (mkNeighborInfo 100 (-60) false false false))
  = score (mkNeighborInfo 100 (-60) false false false) - 90.
Proof.
  apply (proj2 (proj2 (proj2 (score_range_and_visited_mark
                                (mkNeighborInfo 100 (-60) false false false)))));
    reflexivity.
Defined.

(** X22.  Marking the chosen hop visited steers the next choice away from
    it: when [SendPacket] routes through [h] and another neighbour [k]
    scores at least 0 and above what [h] scores once visited, the scorer's
    next answer is a stored id other than [h]. *)
Theorem visited_mark_steers_next_choice (d s o q h k : Z) (pl : list Z)
    (st : THOR) (ih ik : NeighborInfo)
    (Hhop : GetBestNextHop st = h) (Hnz : h <> 0)
    (Hh : neighborTable st !! h = Some ih)
    (Hk : neighborTable st !! k = Some ik)
    (Hother : k <> h)
    (Hpos : 0 <= score ik)
    (Hbetter : score (set_isVisited true ih) < score ik) :
  GetBestNextHop (SendPacket d s o q pl st).2 <> h /\
  exists info, neighborTable (SendPacket d s o q pl st).2
                 !! GetBestNextHop (SendPacket d s o q pl st).2 = Some info /\
               score ik <= score info.
Proof.
  destruct (mark_visited_lookup _ _ _ Hh) as [Hm Hrest].
  assert (Ht : neighborTable (SendPacket d s o q pl st).2
               = mark_visited h (neighborTable st)).
  { unfold SendPacket. rewrite Hhop.
    destruct (Z.eqb_spec h 0) as [|_]; [contradiction|]. reflexivity. }
  unfold GetBestNextHop. rewrite Ht.
  assert (Hk' : mark_visited h (neighborTable st) !! k = Some ik)
    by (rewrite Hrest by exact Hother; exact Hk).
  destruct (GetBestNextHop_table_spec (mark_visited h (neighborTable st)))
    as [[_ Hneg]|(info & Hl & _ & Hmax)].
  - specialize (Hneg _ _ Hk'). lia.
  - specialize (Hmax _ _ Hk'). split; [|exists info; auto].
    intros Heq. rewrite Heq, Hm in Hl. injection Hl as <-. lia.
Qed.

Lemma visited_mark_steers_next_choice_witness :
  GetBestNextHop (SendPacket 9999 1 1 1 help_me two_explorers).2 <> 3 /\
  exists info, neighborTable (SendPacket 9999 1 1 1 help_me two_explorers).2
                 !! GetBestNextHop (SendPacket 9999 1 1 1 help_me two_explorers).2
               = Some info /\
               score (mkNeighborInfo 100 (-60) false false false) <= score info.
Proof.
  apply (visited_mark_steers_next_choice 9999 1 1 1 3 7 help_me two_explorers
           (mkNeighborInfo 100 (-60) false false false)).
  - vm_compute. reflexivity.
  - lia.
  - reflexivity.
  - reflexivity.
  - lia.
  - vm_compute. discriminate.
  - vm_compute. reflexivity.
Defined.

Example explorers_alternate :
  GetBestNextHop two_explorers = 3 /\
  GetBestNextHop (SendPacket 9999 1 1 1 help_me two_explorers).2 = 7.
Proof. split; vm_compute; reflexivity. Qed.

(** ** Ids stay 32-bit *)

Lemma exec_wf_table (st : THOR) (o : op) :
  wf_table (neighborTable st) -> op_ids_u32 o ->
  wf_table (neighborTable (exec st o)).
Proof.
  intros Hwf Ho id info Hl.
  assert (Hdp : data_plane_op o ->
                exists info0, neighborTable st !! id = Some info0).
  { intros Hd. destruct (data_plane_table st o Hd) as [Heq|[Hnz Heq]].
    - rewrite Heq in Hl. eauto.
    - rewrite Heq in Hl. unfold GetBestNextHop in Hnz, Hl.
      pose proof (proj1 (mark_visited_best_hop _ id Hnz)) as Hf.
      rewrite Hl in Hf. destruct (neighborTable st !! id) as [info0|];
        [eauto|discriminate]. }
  destruct o as [now nid r d i v|now|d s o q pl|data out me|].
  - cbn [exec NeighborStore neighborTable] in Hl.
    apply lookup_insert_Some in Hl as [[<- _]|[_ Hl]]; [exact Ho|].
    eapply Hwf, Hl.
  - cbn [exec] in Hl. apply RemoveOld_lookup in Hl as [Hl _]. eapply Hwf, Hl.
  - destruct (Hdp I) as [info0 H0]. eapply Hwf, H0.
  - destruct (Hdp I) as [info0 H0]. eapply Hwf, H0.
  - destruct (Hdp I) as [info0 H0]. eapply Hwf, H0.
Qed.

(** X23.  As long as [NeighborStore] is called with 32-bit ids, every key
    of the neighbour table is a 32-bit id after any run of calls, so every
    hop the scorer answers fits the header's [nextHopId] field. *)
Theorem table_ids_stay_u32 (ops : list op) (st : THOR)
    (Hwf : wf_table (neighborTable st))
    (Hops : Forall op_ids_u32 ops) :
  wf_table (neighborTable (run ops st)) /\
  is_u32 (GetBestNextHop (run ops st)).
Proof.
  assert (H : wf_table (neighborTable (run ops st))).
  { revert st Hwf. induction Hops as [|o ops Ho _ IH]; intros st Hwf;
      [exact Hwf|].
    cbn [run fold_left]. apply IH, exec_wf_table; assumption. }
  split; [exact H|]. apply GetBestNextHop_u32, H.
Qed.

Lemma table_ids_stay_u32_witness :
  let ops := [OpNeighborStore 100 3 (-72) true false false;
              OpSendPacket 9999 1 1 1 help_me; OpRemoveOld 200] in
  wf_table (neighborTable (run ops THOR_init)) /\
  is_u32 (GetBestNextHop (run ops THOR_init)).
Proof.
  apply (table_ids_stay_u32
           [OpNeighborStore 100 3 (-72) true false false;
            OpSendPacket 9999 1 1 1 help_me; OpRemoveOld 200] THOR_init).
  - intros id info Hl. cbn in Hl. rewrite lookup_empty in Hl. discriminate.
  - apply Forall_cons_2; [unfold op_ids_u32, is_u32; lia|].
    repeat (apply Forall_cons_2; [exact I|]). apply Forall_nil_2.
Defined.

(** ** Store and forward at a relay *)

(** X24.  A received packet that [HandleData] had to queue leaves a later
    flush as the very bytes [HandleData] would return for the same frame
    in the flushing state (ttl decremented once, not again by the flush).
    It is the last frame of the batch. *)
Theorem relay_store_and_forward_same_bytes (data : list Z) (out p : Packet)
    (me : Z) (st st2 : THOR)
    (Hdec : Deserialize data out = (true, p))
    (Httl : 2 <= ttl (flagsAndTTL (header p)))
    (Hdst : destinationId (header p) <> me)
    (Hno : GetBestNextHop st = 0)
    (Hroom : (length (packetQueue st) < 50)%nat)
    (Hqueue : packetQueue st2 = packetQueue (HandleData data out me st).2)
    (Hroute : GetBestNextHop st2 <> 0) :
  last (ProcessQueue st2).1 = Some (HandleData data out me st2).1.1.
Proof.
  destruct (HandleData_cases data out me st)
    as [(_ & _ & Hno')|[(p0 & _ & _ & _ & Hnz & _)|(p0 & Hd0 & _ & _ & _ & Heq)]].
  - exfalso. apply Hdst, (Hno' p Hdec). lia.
  - contradiction.
  - rewrite Hdec in Hd0. injection Hd0 as <-.
    rewrite Heq in Hqueue. cbn [snd packetQueue] in Hqueue.
    destruct (enqueue_cases (dec_ttl p) (packetQueue st))
      as [[_ Henq]|[Hfull _]]; [|lia].
    rewrite Henq in Hqueue.
    destruct (ProcessQueue_cases st2) as [[[Hempty|Hz] _]|(_ & _ & Hflush)].
    + rewrite Hqueue in Hempty. destruct (packetQueue st); discriminate.
    + contradiction.
    + rewrite Hflush, Hqueue. cbn [fst]. rewrite map_app. cbn [map].
      rewrite last_snoc. f_equal.
      destruct (HandleData_cases data out me st2)
        as [(_ & _ & Hno2)|[(p2 & Hd2 & _ & _ & _ & Heq2)|(p2 & _ & _ & _ & Hz2 & _)]].
      * exfalso. apply Hdst, (Hno2 p Hdec). lia.
      * rewrite Hdec in Hd2. injection Hd2 as <-. rewrite Heq2. reflexivity.
      * contradiction.
Qed.

Lemma relay_store_and_forward_same_bytes_witness :
  let st2 := NeighborStore 100 3 (-72) true false false
               (HandleData sample_frame (mkPacket Header_zero []) 2 THOR_init).2 in
  last (ProcessQueue st2).1
  = Some (HandleData sample_frame (mkPacket Header_zero []) 2 st2).1.1.
Proof.
  apply (relay_store_and_forward_same_bytes sample_frame
           (mkPacket Header_zero []) sample_packet 2 THOR_init).
  - reflexivity.
  - cbn. lia.
  - cbn. lia.
  - vm_compute. reflexivity.
  - cbn. lia.
  - reflexivity.
  - vm_compute. discriminate.
Defined.
